(** * hydro: the Open Service Broker contract (pkg/osb)

    [pkg/osb/types.go] declares the sentinel errors, the data shapes and the
    last-operation state constants; [pkg/osb/broker.go] declares the
    [OpenServiceBroker] interface.  The package holds declarations only, so
    the first part of this development embeds the declarations themselves:
    Go types as a small syntax, the interface as a table of signatures, the
    [var] block as a sequence of [errors.New] allocations. *)

From stdpp Require Import gmap strings list fin_maps pretty.

Open Scope string_scope.

Set Warnings "-register-all".

(** ** Go types, as far as the two files use them *)

Inductive gotype : Type :=
  | TBool                                   (* bool *)
  | TString                                 (* string *)
  | TError                                  (* the predeclared error type *)
  | TEmptyInterface                         (* interface{} *)
  | TNamed (pkg name : string)              (* pkg.name; pkg = "" inside osb *)
  | TPtr (t : gotype)                       (* *t *)
  | TSlice (t : gotype)                     (* []t *)
  | TMap (k v : gotype)                     (* map[k]v *)
  | TStruct (fields : list (string * gotype)). (* struct { ... } *)

Definition osb (name : string) : gotype := TNamed "" name.
Definition uuid_UUID : gotype := TNamed "uuid" "UUID".
Definition context_Context : gotype := TNamed "context" "Context".
Definition schema_Schema : gotype := TNamed "schema" "Schema".

(** ** broker.go: the OpenServiceBroker interface *)

Record method : Type := Method {
  m_name : string;
  m_params : list gotype;
  m_results : list gotype
}.

Definition OpenServiceBroker : list method := [
  Method "Catalog" []
         [TPtr (osb "CatalogResponse"); TError];
  Method "Provision"
         [uuid_UUID; TPtr (osb "ProvisionRequest"); TBool; context_Context]
         [TPtr (osb "ProvisionResponse"); TError];
  Method "Deprovision"
         [osb "ServiceInstance"; TString; TBool; context_Context]
         [TPtr (osb "DeprovisionResponse"); TError];
  Method "Bind"
         [osb "ServiceInstance"; uuid_UUID; TPtr (osb "BindRequest"); TBool;
          context_Context]
         [TPtr (osb "BindResponse"); TBool; TError];
  Method "Unbind"
         [osb "ServiceInstance"; osb "BindInstance"; TString; TBool;
          context_Context]
         [TPtr (osb "UnbindResponse"); TError];
  Method "Update"
         [uuid_UUID; TPtr (osb "UpdateRequest"); TBool; context_Context]
         [TPtr (osb "UpdateResponse"); TError];
  Method "LastOperation"
         [uuid_UUID; TPtr (osb "LastOperationRequest")]
         [TPtr (osb "LastOperationResponse"); TError];
  Method "GetServiceInstance" [uuid_UUID]
         [TPtr (osb "ServiceInstance"); TError];
  Method "GetBindInstance" [uuid_UUID]
         [TPtr (osb "BindInstance"); TError]
].

Definition find_method (name : string) : option method :=
  List.find (fun m => String.eqb (m_name m) name) OpenServiceBroker.

(** The nine operations as the specification names them. *)
Inductive broker_operation : Type :=
  | OpCatalog | OpProvision | OpDeprovision | OpBind | OpUnbind | OpUpdate
  | OpLastOperation | OpGetServiceInstance | OpGetBindInstance.

Definition all_operations : list broker_operation :=
  [OpCatalog; OpProvision; OpDeprovision; OpBind; OpUnbind; OpUpdate;
   OpLastOperation; OpGetServiceInstance; OpGetBindInstance].

Definition operation_method (op : broker_operation) : string :=
  match op with
  | OpCatalog => "Catalog"
  | OpProvision => "Provision"
  | OpDeprovision => "Deprovision"
  | OpBind => "Bind"
  | OpUnbind => "Unbind"
  | OpUpdate => "Update"
  | OpLastOperation => "LastOperation"
  | OpGetServiceInstance => "GetServiceInstance"
  | OpGetBindInstance => "GetBindInstance"
  end.

(** The state-mutating operations: provision, deprovision, bind, unbind and
    update. *)
Definition state_mutating (op : broker_operation) : bool :=
  match op with
  | OpProvision | OpDeprovision | OpBind | OpUnbind | OpUpdate => true
  | _ => false
  end.

Definition is_bool (t : gotype) : bool :=
  match t with TBool => true | _ => false end.

Definition is_context (t : gotype) : bool :=
  match t with
  | TNamed p n => String.eqb p "context" && String.eqb n "Context"
  | _ => false
  end.

Definition count_params (p : gotype -> bool) (m : method) : nat :=
  length (List.filter p (m_params m)).

(** ** types.go: the sentinel errors

    [errors.New] returns a pointer to a fresh [errorString]; two calls never
    return the same pointer, whatever the text.  An error value is the pair
    of its address and its text, and the allocator is threaded through the
    package's initialisation. *)

Record error : Type := ErrorString { err_addr : nat; err_text : string }.

Definition alloc (A : Type) : Type := nat -> A * nat.

Definition errors_New (text : string) : alloc error :=
  fun next => (ErrorString next text, S next).

(** The [var ( ... )] block of types.go, in declaration order. *)
Definition var_block : list (string * string) := [
  ("ErrorAlreadyProvisioned", "already provisioned");
  ("ErrorDuplicate", "duplicate instance");
  ("ErrorNotFound", "not found");
  ("ErrorBindingExists", "binding exists");
  ("ErrorProvisionInProgress", "provision in progress");
  ("ErrorDeprovisionInProgress", "deprovision in progress");
  ("ErrorUpdateInProgress", "update in progress");
  ("ErrorPlanNotFound", "plan not found");
  ("ErrorParameterNotUpdatable", "parameter not updatable");
  ("ErrorParameterNotFound", "parameter not found");
  ("ErrorPlanUpdateNotPossible", "plan update not possible");
  ("ErrorForbidden", "User does not have sufficient permissions")
].

Fixpoint init_vars (decls : list (string * string))
  : alloc (list (string * error)) :=
  fun next =>
    match decls with
    | [] => ([], next)
    | (name, text) :: rest =>
        let '(e, next1) := errors_New text next in
        let '(vars, next2) := init_vars rest next1 in
        ((name, e) :: vars, next2)
    end.

(** The package's error variables after initialisation. *)
Definition package_errors : list (string * error) :=
  fst (init_vars var_block 0).

Definition lookup_var (name : string) : option error :=
  snd <$> List.find (fun d => String.eqb (fst d) name) package_errors.

(** Go compares two error interface values holding [*errorString] by
    pointer. *)
Definition error_eqb (a b : error) : bool := Nat.eqb (err_addr a) (err_addr b).

(** The error taxonomy of the specification. *)
Inductive error_kind : Type :=
  | NotFound | Duplicate | AlreadyProvisioned | BindingExists
  | ProvisionInProgress | DeprovisionInProgress | UpdateInProgress
  | PlanNotFound | ParameterNotFound | ParameterNotUpdatable
  | PlanUpdateNotPossible | Forbidden | AdapterFailure.

Definition kind_name (k : error_kind) : string :=
  match k with
  | NotFound => "NotFound"
  | Duplicate => "Duplicate"
  | AlreadyProvisioned => "AlreadyProvisioned"
  | BindingExists => "BindingExists"
  | ProvisionInProgress => "ProvisionInProgress"
  | DeprovisionInProgress => "DeprovisionInProgress"
  | UpdateInProgress => "UpdateInProgress"
  | PlanNotFound => "PlanNotFound"
  | ParameterNotFound => "ParameterNotFound"
  | ParameterNotUpdatable => "ParameterNotUpdatable"
  | PlanUpdateNotPossible => "PlanUpdateNotPossible"
  | Forbidden => "Forbidden"
  | AdapterFailure => "AdapterFailure"
  end.

(** The package names the error of kind [K] as [ErrorK]. *)
Definition declared_error (k : error_kind) : option error :=
  lookup_var ("Error" ++ kind_name k).

#[global] Instance error_kind_eq_dec : EqDecision error_kind.
Proof. solve_decision. Defined.

(** ** types.go: the last-operation state constants *)

Definition LastOperationStateInProgress : string := "in progress".
Definition LastOperationStateSucceeded : string := "succeeded".
Definition LastOperationStateFailed : string := "failed".

(** ** types.go: the type declarations *)

Definition BindResource_t : gotype :=
  TStruct [("AppID", uuid_UUID); ("Route", TString)].

Definition PreviousValues_t : gotype :=
  TStruct [("PlanID", TString); ("ServiceID", TString);
           ("OrganizationID", uuid_UUID); ("SpaceID", uuid_UUID)].

Definition type_decls : list (string * gotype) := [
  ("Parameters", TMap TString TEmptyInterface);
  ("Context", TStruct [("Platform", TString); ("Namespace", TString)]);
  ("ServiceInstance",
   TStruct [("ID", uuid_UUID); ("PlanID", uuid_UUID);
            ("Context", TPtr (osb "Context"));
            ("Parameters", TPtr (osb "Parameters"));
            ("BindingIDs", TMap TString TBool)]);
  ("BindInstance",
   TStruct [("ID", uuid_UUID); ("ServiceID", uuid_UUID);
            ("Parameters", TPtr (osb "Parameters"))]);
  ("DashboardClient",
   TStruct [("ID", TString); ("Secret", TString); ("RedirectURI", TString)]);
  ("Service",
   TStruct [("Name", TString); ("ID", TString); ("Description", TString);
            ("Tags", TSlice TString); ("Requires", TSlice TString);
            ("Bindable", TBool); ("Metadata", TMap TString TEmptyInterface);
            ("DashboardClient", TPtr (osb "DashboardClient"));
            ("PlanUpdatable", TBool); ("Plans", TSlice (osb "Plan"))]);
  ("Plan",
   TStruct [("ID", TString); ("Name", TString); ("Description", TString);
            ("Metadata", TMap TString TEmptyInterface); ("Free", TBool);
            ("Bindable", TBool); ("Schemas", osb "Schema");
            ("UpdatesTo", TSlice TString)]);
  ("ServiceInstanceSchema",
   TStruct [("Create", TMap TString (TPtr schema_Schema));
            ("Update", TMap TString (TPtr schema_Schema))]);
  ("ServiceBindingSchema",
   TStruct [("Create", TMap TString (TPtr schema_Schema))]);
  ("Schema",
   TStruct [("ServiceInstance", osb "ServiceInstanceSchema");
            ("ServiceBinding", osb "ServiceBindingSchema")]);
  ("CatalogResponse", TStruct [("Services", TSlice (osb "Service"))]);
  ("ProvisionRequest",
   TStruct [("OrganizationID", uuid_UUID); ("PlanID", TString);
            ("ServiceID", TString); ("SpaceID", uuid_UUID);
            ("Context", osb "Context"); ("Parameters", osb "Parameters");
            ("AcceptsIncomplete", TBool)]);
  ("ProvisionResponse",
   TStruct [("DashboardURL", TString); ("Operation", TString)]);
  ("DeprovisionResponse", TStruct [("Operation", TString)]);
  ("BindRequest",
   TStruct [("ServiceID", TString); ("PlanID", TString); ("AppID", uuid_UUID);
            ("BindResource", BindResource_t);
            ("Parameters", osb "Parameters")]);
  ("BindResponse",
   TStruct [("Credentials", TMap TString TEmptyInterface);
            ("SyslogDrainURL", TString); ("RouteServiceURL", TString);
            ("VolumeMounts", TSlice TEmptyInterface);
            ("Operation", TString)]);
  ("UnbindResponse", TStruct [("Operation", TString)]);
  ("UpdateRequest",
   TStruct [("ServiceID", TString); ("PlanID", TString);
            ("Parameters", TMap TString TString);
            ("PreviousValues", PreviousValues_t);
            ("Context", osb "Context"); ("AcceptsIncomplete", TBool)]);
  ("UpdateResponse", TStruct [("Operation", TString)]);
  ("LastOperationRequest",
   TStruct [("ServiceID", TString); ("PlanID", TString);
            ("Operation", TString)]);
  ("LastOperationResponse",
   TStruct [("State", TString); ("Description", TString)]);
  ("ServiceInstanceResponse",
   TStruct [("ServiceID", TString); ("PlanID", TString);
            ("DashboardURL", TString); ("Parameters", osb "Parameters")]);
  ("ErrorResponse", TStruct [("Description", TString)])
].

Definition assoc {A : Type} (name : string) (l : list (string * A))
  : option A :=
  snd <$> List.find (fun d => String.eqb (fst d) name) l.

(** The declared type behind a name of package osb. *)
Definition type_of_name (name : string) : option gotype :=
  assoc name type_decls.

(** Named types of the package resolve to their declaration; every other
    type is itself. *)
Definition underlying (t : gotype) : option gotype :=
  match t with
  | TNamed "" name => type_of_name name
  | _ => Some t
  end.

(** The type of field [f] of the struct type named [s]. *)
Definition field_type (s f : string) : option gotype :=
  match type_of_name s with
  | Some (TStruct fields) => assoc f fields
  | _ => None
  end.

(** ** Values

    A value held in an [interface{}]: the shapes a decoded JSON document
    takes in Go (nil, bool, number, string, []interface{},
    map[string]interface{}).  Numbers are carried as integers. *)

Inductive any : Type :=
  | ANil
  | ABool (b : bool)
  | ANumber (n : Z)
  | AString (s : string)
  | ASlice (l : list any)
  | AObject (m : list (string * any)).

#[global] Instance any_eq_dec : EqDecision any.
Proof.
  refine (fix go (x y : any) {struct x} : Decision (x = y) :=
    match x, y with
    | ANil, ANil => left eq_refl
    | ABool a, ABool b => cast_if (decide (a = b))
    | ANumber a, ANumber b => cast_if (decide (a = b))
    | AString a, AString b => cast_if (decide (a = b))
    | ASlice l, ASlice l' =>
        cast_if (@decide (l = l') (list_eq_dec (dec:=go) l l'))
    | AObject m, AObject m' =>
        cast_if (@decide (m = m')
                   (list_eq_dec (dec:=@prod_eq_dec _ _ _ go) m m'))
    | _, _ => right _
    end); abstract congruence.
Defined.

(** ** types.go: the data shapes, as records

    [uuid.UUID] is carried in its text form.  A pointer field is an
    [option]; a Go map keyed by strings is a [gmap string _]. *)

Abbreviation UUID := string.
Abbreviation Parameters := (gmap string any).

Record Context : Type := {
  Platform : string;
  Namespace : string
}.

Record ServiceInstance : Type := {
  si_ID : UUID;
  si_PlanID : UUID;
  si_Context : option Context;
  si_Parameters : option Parameters;
  si_BindingIDs : gmap string bool
}.

Record BindInstance : Type := {
  bi_ID : UUID;
  bi_ServiceID : UUID;
  bi_Parameters : option Parameters
}.

Record ProvisionRequest : Type := {
  pr_OrganizationID : UUID;
  pr_PlanID : string;
  pr_ServiceID : string;
  pr_SpaceID : UUID;
  pr_Context : Context;
  pr_Parameters : Parameters;
  pr_AcceptsIncomplete : bool
}.

Record ProvisionResponse : Type := {
  prs_DashboardURL : string;
  prs_Operation : string
}.

Record DeprovisionResponse : Type := { dps_Operation : string }.

Record BindResource : Type := {
  bres_AppID : UUID;
  bres_Route : string
}.

Record BindRequest : Type := {
  br_ServiceID : string;
  br_PlanID : string;
  br_AppID : UUID;
  br_BindResource : BindResource;
  br_Parameters : Parameters
}.

Record BindResponse : Type := {
  brs_Credentials : gmap string any;
  brs_SyslogDrainURL : string;
  brs_RouteServiceURL : string;
  brs_VolumeMounts : list any;
  brs_Operation : string
}.

Record UnbindResponse : Type := { ubs_Operation : string }.

Record PreviousValues : Type := {
  pv_PlanID : string;
  pv_ServiceID : string;
  pv_OrganizationID : UUID;
  pv_SpaceID : UUID
}.

Record UpdateRequest : Type := {
  ur_ServiceID : string;
  ur_PlanID : string;
  ur_Parameters : gmap string string;
  ur_PreviousValues : PreviousValues;
  ur_Context : Context;
  ur_AcceptsIncomplete : bool
}.

Record UpdateResponse : Type := { ups_Operation : string }.

Record LastOperationRequest : Type := {
  lor_ServiceID : string;
  lor_PlanID : string;
  lor_Operation : string
}.

Record LastOperationResponse : Type := {
  los_State : string;
  los_Description : string
}.

#[global] Instance Context_eq_dec : EqDecision Context.
Proof. solve_decision. Defined.
#[global] Instance ServiceInstance_eq_dec : EqDecision ServiceInstance.
Proof. solve_decision. Defined.
#[global] Instance BindInstance_eq_dec : EqDecision BindInstance.
Proof. solve_decision. Defined.
#[global] Instance ProvisionResponse_eq_dec : EqDecision ProvisionResponse.
Proof. solve_decision. Defined.
#[global] Instance BindResponse_eq_dec : EqDecision BindResponse.
Proof. solve_decision. Defined.

(** An update request's parameters, seen as values of the general
    [Parameters] type: each entry is a string. *)
Definition update_parameters (u : UpdateRequest) : Parameters :=
  AString <$> ur_Parameters u.

(** * The provisioning core behind the contract

    The package declares the broker operations and implements none of
    them.  The definitions from here on follow the design that the
    specification gives for the component behind the interface: Instance
    Registry, Operation Tracker, Provisioner Adapter and Broker
    Orchestrator. *)

(** Modelled from the spec: the outcome of a call, missing from the
    sources.  A failure is a kind of the taxonomy, the opaque
    [AdapterFailure] wrapping what the adapter reported, the tracker's
    [OperationInProgress], or a reported programming error. *)
Inductive failure : Type :=
  | Fail (k : error_kind)
  | FailAdapter (report : string)
  | FailOperationInProgress
  | FailInternal (what : string).

Inductive result (A : Type) : Type :=
  | Ok (a : A)
  | Err (f : failure).
Arguments Ok {A} a.
Arguments Err {A} f.

#[global] Instance failure_eq_dec : EqDecision failure.
Proof. solve_decision. Defined.
#[global] Instance result_eq_dec `{EqDecision A} : EqDecision (result A).
Proof. solve_decision. Defined.

(** ** Operation Tracker *)

Inductive op_kind : Type :=
  | KProvision | KDeprovision | KBind | KUnbind | KUpdate.

Inductive op_state : Type := InProgress | Succeeded | Failed.

#[global] Instance op_kind_eq_dec : EqDecision op_kind.
Proof. solve_decision. Defined.
#[global] Instance op_state_eq_dec : EqDecision op_state.
Proof. solve_decision. Defined.

(** The state as the last-operation response carries it: one of the three
    constants of types.go. *)
Definition state_string (st : op_state) : string :=
  match st with
  | InProgress => LastOperationStateInProgress
  | Succeeded => LastOperationStateSucceeded
  | Failed => LastOperationStateFailed
  end.

(** Modelled from the spec: the Operation Record (target instance ID,
    operation kind, state, human-readable description), missing from the
    sources. *)
Record OperationRecord : Type := {
  op_instance : UUID;
  op_what : op_kind;
  op_status : op_state;
  op_description : string
}.

#[global] Instance OperationRecord_eq_dec : EqDecision OperationRecord.
Proof. solve_decision. Defined.

(** Modelled from the spec: the Operation Tracker's store, missing from the
    sources.  Tokens are unique across the tracker's lifetime: the n-th
    token handed out is [token_of n], and [issued] counts them.  That a
    token cannot be guessed is not modelled. *)
Record tracker : Type := {
  records : gmap string OperationRecord;
  issued : nat
}.

Definition token_of (n : nat) : string := "op-" +:+ pretty n.

Definition unfinished (id : UUID) (r : OperationRecord) : bool :=
  bool_decide (op_instance r = id) && bool_decide (op_status r = InProgress).

(** An unfinished operation exists for the instance. *)
Definition busy (id : UUID) (t : tracker) : bool :=
  bool_decide (map_Exists (fun _ r => unfinished id r = true) (records t)).

(** Modelled from the spec: [Begin(instanceID, kind) -> token], missing
    from the sources.  It fails with [OperationInProgress] if an unfinished
    operation exists for the instance; the new record supersedes the
    completed records of the same instance. *)
Definition Tracker_Begin (id : UUID) (kind : op_kind) (t : tracker)
  : result (string * tracker) :=
  if busy id t then Err FailOperationInProgress
  else
    let token := token_of (issued t) in
    let kept := filter (fun kr => op_instance (snd kr) <> id) (records t) in
    Ok (token,
        {| records := <[token := {| op_instance := id; op_what := kind;
                                    op_status := InProgress;
                                    op_description := "" |}]> kept;
           issued := S (issued t) |}).

(** The terminal outcome of an operation; a failure carries what the
    adapter reported. *)
Inductive outcome : Type :=
  | Success
  | Failure (report : string).

Definition outcome_state (o : outcome) : op_state :=
  match o with Success => Succeeded | Failure _ => Failed end.

Definition outcome_description (o : outcome) : string :=
  match o with Success => "" | Failure report => report end.

(** Modelled from the spec: [Complete(token, outcome)], missing from the
    sources.  The record moves to succeeded or failed; repeating the same
    outcome is a no-op, a different outcome is reported as a programming
    error. *)
Definition Tracker_Complete (token : string) (o : outcome) (t : tracker)
  : result tracker :=
  match records t !! token with
  | None => Err (Fail NotFound)
  | Some r =>
      let done :=
        {| op_instance := op_instance r; op_what := op_what r;
           op_status := outcome_state o;
           op_description := outcome_description o |} in
      match op_status r with
      | InProgress =>
          Ok {| records := <[token := done]> (records t);
                issued := issued t |}
      | _ =>
          if decide (r = done) then Ok t
          else Err (FailInternal "conflicting completion")
      end
  end.

(** Modelled from the spec: [Status(token) -> OperationRecord | NotFound],
    missing from the sources. *)
Definition Tracker_Status (token : string) (t : tracker)
  : result OperationRecord :=
  match records t !! token with
  | Some r => Ok r
  | None => Err (Fail NotFound)
  end.

(** Modelled from the spec: garbage collection of a completed record after
    its retention window, missing from the sources.  A record still in
    progress is never collected. *)
Definition Tracker_Collect (token : string) (t : tracker) : tracker :=
  match records t !! token with
  | Some r =>
      match op_status r with
      | InProgress => t
      | _ => {| records := delete token (records t); issued := issued t |}
      end
  | None => t
  end.

(** ** Instance Registry *)

(** Per-instance states [PROVISIONING], [PROVISIONED], [UPDATING] and
    [DEPROVISIONING]; [ABSENT] and [GONE] are the instance having no record. *)
Inductive lifecycle : Type :=
  | PROVISIONING | PROVISIONED | UPDATING | DEPROVISIONING.

(** Binding states [BINDING], [BOUND] and [UNBINDING]; [ABSENT] and [GONE]
    are the binding having no record. *)
Inductive binding_state : Type := BINDING | BOUND | UNBINDING.

#[global] Instance lifecycle_eq_dec : EqDecision lifecycle.
Proof. solve_decision. Defined.
#[global] Instance binding_state_eq_dec : EqDecision binding_state.
Proof. solve_decision. Defined.

(** Modelled from the spec: the Registry's record of a service instance
    (the ServiceInstance of types.go with its lifecycle state and the result
    of its provisioning), missing from the sources. *)
Record InstanceRecord : Type := {
  instance : ServiceInstance;
  state_of : lifecycle;
  dashboard : string
}.

(** Modelled from the spec: the Registry's record of a binding (the
    BindInstance of types.go with its state and the response of the bind),
    missing from the sources. *)
Record BindingRecord : Type := {
  binding : BindInstance;
  bstate_of : binding_state;
  bound : BindResponse
}.

(** Modelled from the spec: the Registry's store, missing from the
    sources. *)
Record registry : Type := {
  instances : gmap string InstanceRecord;
  bindings : gmap string BindingRecord
}.

(** Modelled from the spec: the Registry contract
    [Get(id) -> ServiceInstance | NotFound], [Put(instance) -> success |
    Duplicate], [Update(id, mutator) -> success | NotFound],
    [Delete(id) -> success | NotFound], and the same for bindings; missing
    from the sources. *)
Definition Registry_Get (id : UUID) (g : registry) : result InstanceRecord :=
  match instances g !! id with
  | Some r => Ok r
  | None => Err (Fail NotFound)
  end.

Definition Registry_Put (r : InstanceRecord) (g : registry) : result registry :=
  match instances g !! si_ID (instance r) with
  | Some _ => Err (Fail Duplicate)
  | None =>
      Ok {| instances := <[si_ID (instance r) := r]> (instances g);
            bindings := bindings g |}
  end.

Definition Registry_Update (id : UUID)
    (mutator : InstanceRecord -> InstanceRecord) (g : registry)
  : result registry :=
  match instances g !! id with
  | Some r =>
      Ok {| instances := <[id := mutator r]> (instances g);
            bindings := bindings g |}
  | None => Err (Fail NotFound)
  end.

Definition Registry_Delete (id : UUID) (g : registry) : result registry :=
  match instances g !! id with
  | Some _ =>
      Ok {| instances := delete id (instances g); bindings := bindings g |}
  | None => Err (Fail NotFound)
  end.

Definition Registry_GetBinding (id : UUID) (g : registry)
  : result BindingRecord :=
  match bindings g !! id with
  | Some r => Ok r
  | None => Err (Fail NotFound)
  end.

Definition Registry_PutBinding (r : BindingRecord) (g : registry)
  : result registry :=
  match bindings g !! bi_ID (binding r) with
  | Some _ => Err (Fail Duplicate)
  | None =>
      Ok {| instances := instances g;
            bindings := <[bi_ID (binding r) := r]> (bindings g) |}
  end.

Definition Registry_UpdateBinding (id : UUID)
    (mutator : BindingRecord -> BindingRecord) (g : registry)
  : result registry :=
  match bindings g !! id with
  | Some r =>
      Ok {| instances := instances g;
            bindings := <[id := mutator r]> (bindings g) |}
  | None => Err (Fail NotFound)
  end.

Definition Registry_DeleteBinding (id : UUID) (g : registry)
  : result registry :=
  match bindings g !! id with
  | Some _ =>
      Ok {| instances := instances g; bindings := delete id (bindings g) |}
  | None => Err (Fail NotFound)
  end.

(** ** Provisioner Adapter and catalog *)

(** What the adapter reports: a value or an error of its own. *)
Inductive reported (A : Type) : Type :=
  | Done (a : A)
  | Reported (report : string).
Arguments Done {A} a.
Arguments Reported {A} report.

(** Modelled from the spec: the Provisioner Adapter contract
    [Create(instance) -> (dashboardURL, error)], [Destroy(instance) -> error],
    [Bind(instance, binding) -> (credentials, error)],
    [Unbind(instance, binding) -> error],
    [Reconfigure(instance, newPlan) -> error]; missing from the sources.
    The adapter is external: each answer may also depend on how many adapter
    calls were made before it (the first argument). *)
Record Adapter : Type := {
  Adapter_Create : nat -> ServiceInstance -> reported string;
  Adapter_Destroy : nat -> ServiceInstance -> reported unit;
  Adapter_Bind :
    nat -> ServiceInstance -> BindInstance -> reported (gmap string any);
  Adapter_Unbind : nat -> ServiceInstance -> BindInstance -> reported unit;
  Adapter_Reconfigure : nat -> ServiceInstance -> string -> reported unit
}.

Inductive adapter_call : Type :=
  | CallCreate (i : ServiceInstance)
  | CallDestroy (i : ServiceInstance)
  | CallBind (i : ServiceInstance) (b : BindInstance)
  | CallUnbind (i : ServiceInstance) (b : BindInstance)
  | CallReconfigure (i : ServiceInstance) (plan : string).

(** Modelled from the spec: the catalog (which plans exist, whether a plan
    is updatable to another plan, which parameters a plan recognises and
    which of them are mutable), missing from the sources; read-only. *)
Record CatalogModel : Type := {
  plan_exists : string -> bool;
  parameter_recognized : string -> string -> bool;
  parameter_updatable : string -> string -> bool;
  plan_updates_to : string -> string -> bool
}.

(** ** Broker Orchestrator *)

(** The work handed to a background worker when a call is accepted
    asynchronously. *)
Inductive task : Type :=
  | TaskProvision (id : UUID)
  | TaskDeprovision (id : UUID)
  | TaskBind (id binding_id : UUID)
  | TaskUnbind (id binding_id : UUID)
  | TaskUpdate (id : UUID) (req : UpdateRequest).

Definition task_instance (w : task) : UUID :=
  match w with
  | TaskProvision id | TaskDeprovision id | TaskBind id _ | TaskUnbind id _
  | TaskUpdate id _ => id
  end.

(** Modelled from the spec: the state the orchestrator coordinates (the two
    stores, the dispatched background work and the adapter calls made so
    far), missing from the sources. *)
Record broker : Type := {
  reg : registry;
  trk : tracker;
  queue : gmap string task;
  calls : list adapter_call
}.

Definition initial : broker :=
  {| reg := {| instances := ∅; bindings := ∅ |};
     trk := {| records := ∅; issued := 0 |};
     queue := ∅;
     calls := [] |}.

Definition set_reg (g : registry) (s : broker) : broker :=
  {| reg := g; trk := trk s; queue := queue s; calls := calls s |}.

Definition set_trk (t : tracker) (s : broker) : broker :=
  {| reg := reg s; trk := t; queue := queue s; calls := calls s |}.

Definition log_call (c : adapter_call) (s : broker) : broker :=
  {| reg := reg s; trk := trk s; queue := queue s; calls := calls s ++ [c] |}.

Definition dispatch (token : string) (w : task) (s : broker) : broker :=
  {| reg := reg s; trk := trk s; queue := <[token := w]> (queue s);
     calls := calls s |}.

Definition retire (token : string) (s : broker) : broker :=
  {| reg := reg s; trk := trk s; queue := delete token (queue s);
     calls := calls s |}.

(** Mutators passed to the Registry's [Update]. *)
Definition set_lifecycle (st : lifecycle) (r : InstanceRecord)
  : InstanceRecord :=
  {| instance := instance r; state_of := st; dashboard := dashboard r |}.

Definition provisioned (url : string) (r : InstanceRecord) : InstanceRecord :=
  {| instance := instance r; state_of := PROVISIONED; dashboard := url |}.

Definition with_binding_ids (ids : gmap string bool) (i : ServiceInstance)
  : ServiceInstance :=
  {| si_ID := si_ID i; si_PlanID := si_PlanID i; si_Context := si_Context i;
     si_Parameters := si_Parameters i; si_BindingIDs := ids |}.

Definition add_binding_id (b : UUID) (r : InstanceRecord) : InstanceRecord :=
  {| instance :=
       with_binding_ids (<[b := true]> (si_BindingIDs (instance r)))
         (instance r);
     state_of := state_of r; dashboard := dashboard r |}.

Definition remove_binding_id (b : UUID) (r : InstanceRecord)
  : InstanceRecord :=
  {| instance :=
       with_binding_ids (delete b (si_BindingIDs (instance r))) (instance r);
     state_of := state_of r; dashboard := dashboard r |}.

Definition reconfigured (req : UpdateRequest) (r : InstanceRecord)
  : InstanceRecord :=
  {| instance :=
       {| si_ID := si_ID (instance r);
          si_PlanID := ur_PlanID req;
          si_Context := si_Context (instance r);
          si_Parameters :=
            Some (update_parameters req
                    ∪ default ∅ (si_Parameters (instance r)));
          si_BindingIDs := si_BindingIDs (instance r) |};
     state_of := PROVISIONED; dashboard := dashboard r |}.

Definition set_bstate (st : binding_state) (r : BindingRecord)
  : BindingRecord :=
  {| binding := binding r; bstate_of := st; bound := bound r |}.

Definition bound_with (resp : BindResponse) (r : BindingRecord)
  : BindingRecord :=
  {| binding := binding r; bstate_of := BOUND; bound := resp |}.

Definition new_instance (id : UUID) (req : ProvisionRequest)
  : ServiceInstance :=
  {| si_ID := id; si_PlanID := pr_PlanID req;
     si_Context := Some (pr_Context req);
     si_Parameters := Some (pr_Parameters req);
     si_BindingIDs := ∅ |}.

Definition new_binding (id binding_id : UUID) (req : BindRequest)
  : BindInstance :=
  {| bi_ID := binding_id; bi_ServiceID := id;
     bi_Parameters := Some (br_Parameters req) |}.

Definition bind_response (credentials : gmap string any) (token : string)
  : BindResponse :=
  {| brs_Credentials := credentials; brs_SyslogDrainURL := "";
     brs_RouteServiceURL := ""; brs_VolumeMounts := [];
     brs_Operation := token |}.

(** Two registry changes in sequence. *)
Definition both (c1 c2 : registry -> result registry) (g : registry)
  : result registry :=
  match c1 g with
  | Ok g1 => c2 g1
  | Err f => Err f
  end.

(** Answer [a] once the registry change went through. *)
Definition commit {A : Type} (c : registry -> result registry) (a : A)
    (s : broker) : result A * broker :=
  match c (reg s) with
  | Ok g => (Ok a, set_reg g s)
  | Err f => (Err f, s)
  end.

(** Modelled from the spec: Provision, declared in broker.go and
    implemented nowhere in the sources.  On an ID already PROVISIONED (or in
    its sub-state UPDATING) identical parameters give the prior result and
    different parameters give AlreadyProvisioned; while PROVISIONING the call
    fails with ProvisionInProgress.  New work is accepted with an operation
    token when the caller accepts incomplete operations, and otherwise done
    by the adapter before the call returns.  The context argument of the
    interface is left out: cancellation is not part of this model. *)
Definition Provision (A : Adapter) (id : UUID) (req : ProvisionRequest)
    (acceptsIncomplete : bool) (s : broker)
  : result ProvisionResponse * broker :=
  match Registry_Get id (reg s) with
  | Ok r =>
      match state_of r with
      | PROVISIONING => (Err (Fail ProvisionInProgress), s)
      | DEPROVISIONING => (Err (Fail DeprovisionInProgress), s)
      | PROVISIONED | UPDATING =>
          if decide (si_Parameters (instance r) = Some (pr_Parameters req))
          then (Ok {| prs_DashboardURL := dashboard r; prs_Operation := "" |},
                s)
          else (Err (Fail AlreadyProvisioned), s)
      end
  | Err _ =>
      let i := new_instance id req in
      if acceptsIncomplete then
        match Tracker_Begin id KProvision (trk s) with
        | Err f => (Err f, s)
        | Ok (token, t) =>
            commit
              (Registry_Put {| instance := i; state_of := PROVISIONING;
                               dashboard := "" |})
              {| prs_DashboardURL := ""; prs_Operation := token |}
              (dispatch token (TaskProvision id) (set_trk t s))
        end
      else if busy id (trk s) then (Err FailOperationInProgress, s)
      else
        let s1 := log_call (CallCreate i) s in
        match Adapter_Create A (length (calls s)) i with
        | Reported e => (Err (FailAdapter e), s1)
        | Done url =>
            commit
              (Registry_Put {| instance := i; state_of := PROVISIONED;
                               dashboard := url |})
              {| prs_DashboardURL := url; prs_Operation := "" |}
              s1
        end
  end.

(** Modelled from the spec: Deprovision, declared in broker.go and
    implemented nowhere in the sources.  An ID with no record fails with
    NotFound; an instance with a non-empty binding set fails with
    BindingExists, whatever its state; then the state decides.  The
    interface gives a caller no way to present itself as the
    binding-cleanup path, so the operation has no such exception.  No rule
    of the specification reads the plan ID argument. *)
Definition Deprovision (A : Adapter) (inst : ServiceInstance)
    (planID : string) (acceptsIncomplete : bool) (s : broker)
  : result DeprovisionResponse * broker :=
  let id := si_ID inst in
  match Registry_Get id (reg s) with
  | Err f => (Err f, s)
  | Ok r =>
      if decide (si_BindingIDs (instance r) = ∅) then
        match state_of r with
        | PROVISIONING => (Err (Fail ProvisionInProgress), s)
        | DEPROVISIONING => (Err (Fail DeprovisionInProgress), s)
        | UPDATING => (Err (Fail UpdateInProgress), s)
        | PROVISIONED =>
            if acceptsIncomplete then
              match Tracker_Begin id KDeprovision (trk s) with
              | Err f => (Err f, s)
              | Ok (token, t) =>
                  commit (Registry_Update id (set_lifecycle DEPROVISIONING))
                    {| dps_Operation := token |}
                    (dispatch token (TaskDeprovision id) (set_trk t s))
              end
            else if busy id (trk s) then (Err FailOperationInProgress, s)
            else
              let s1 := log_call (CallDestroy (instance r)) s in
              match Adapter_Destroy A (length (calls s)) (instance r) with
              | Reported e => (Err (FailAdapter e), s1)
              | Done _ =>
                  commit (Registry_Delete id) {| dps_Operation := "" |} s1
              end
        end
      else (Err (Fail BindingExists), s)
  end.

(** Modelled from the spec: Bind, declared in broker.go and implemented
    nowhere in the sources.  An instance not in PROVISIONED fails with
    NotFound or the in-progress error of its state; an existing binding ID
    with identical parameters is an idempotent success and with different
    ones fails with BindingExists.  A new binding is recorded, and its ID
    joins the instance's binding set, when the call is accepted.  The extra
    boolean result of the interface has no meaning in the specification and
    is left out. *)
Definition Bind (A : Adapter) (inst : ServiceInstance) (binding_id : UUID)
    (req : BindRequest) (acceptsIncomplete : bool) (s : broker)
  : result BindResponse * broker :=
  let id := si_ID inst in
  match Registry_Get id (reg s) with
  | Err f => (Err f, s)
  | Ok r =>
      match state_of r with
      | PROVISIONING => (Err (Fail ProvisionInProgress), s)
      | DEPROVISIONING => (Err (Fail DeprovisionInProgress), s)
      | UPDATING => (Err (Fail UpdateInProgress), s)
      | PROVISIONED =>
          let b := new_binding id binding_id req in
          match Registry_GetBinding binding_id (reg s) with
          | Ok br =>
              if decide (binding br = b) then (Ok (bound br), s)
              else (Err (Fail BindingExists), s)
          | Err _ =>
              if acceptsIncomplete then
                match Tracker_Begin id KBind (trk s) with
                | Err f => (Err f, s)
                | Ok (token, t) =>
                    let resp := bind_response ∅ token in
                    commit
                      (both
                         (Registry_PutBinding
                            {| binding := b; bstate_of := BINDING;
                               bound := resp |})
                         (Registry_Update id (add_binding_id binding_id)))
                      resp
                      (dispatch token (TaskBind id binding_id) (set_trk t s))
                end
              else if busy id (trk s) then (Err FailOperationInProgress, s)
              else
                let s1 := log_call (CallBind (instance r) b) s in
                match Adapter_Bind A (length (calls s)) (instance r) b with
                | Reported e => (Err (FailAdapter e), s1)
                | Done credentials =>
                    let resp := bind_response credentials "" in
                    commit
                      (both
                         (Registry_PutBinding
                            {| binding := b; bstate_of := BOUND;
                               bound := resp |})
                         (Registry_Update id (add_binding_id binding_id)))
                      resp s1
                end
          end
      end
  end.

(** Modelled from the spec: Unbind, declared in broker.go and implemented
    nowhere in the sources.  A missing binding, or one the instance does not
    own, fails with NotFound.  No rule of the specification reads the plan
    ID argument. *)
Definition Unbind (A : Adapter) (inst : ServiceInstance) (b : BindInstance)
    (planID : string) (acceptsIncomplete : bool) (s : broker)
  : result UnbindResponse * broker :=
  let id := si_ID inst in
  let binding_id := bi_ID b in
  match Registry_Get id (reg s) with
  | Err f => (Err f, s)
  | Ok r =>
      match Registry_GetBinding binding_id (reg s) with
      | Err f => (Err f, s)
      | Ok br =>
          if decide (bi_ServiceID (binding br) = id) then
            if acceptsIncomplete then
              match Tracker_Begin id KUnbind (trk s) with
              | Err f => (Err f, s)
              | Ok (token, t) =>
                  commit
                    (Registry_UpdateBinding binding_id (set_bstate UNBINDING))
                    {| ubs_Operation := token |}
                    (dispatch token (TaskUnbind id binding_id) (set_trk t s))
              end
            else if busy id (trk s) then (Err FailOperationInProgress, s)
            else
              let s1 := log_call (CallUnbind (instance r) (binding br)) s in
              match
                Adapter_Unbind A (length (calls s)) (instance r) (binding br)
              with
              | Reported e => (Err (FailAdapter e), s1)
              | Done _ =>
                  commit
                    (both (Registry_DeleteBinding binding_id)
                       (Registry_Update id (remove_binding_id binding_id)))
                    {| ubs_Operation := "" |} s1
              end
          else (Err (Fail NotFound), s)
      end
  end.

(** The checks of an update, in the order the specification lists them. *)
Definition validate_update (C : CatalogModel) (req : UpdateRequest)
    (i : ServiceInstance) : option error_kind :=
  let plan := ur_PlanID req in
  let names := (map_to_list (ur_Parameters req)).*1 in
  if negb (plan_exists C plan) then Some PlanNotFound
  else if negb (forallb (parameter_recognized C plan) names)
  then Some ParameterNotFound
  else if negb (forallb (parameter_updatable C plan) names)
  then Some ParameterNotUpdatable
  else if negb (plan_updates_to C (si_PlanID i) plan)
  then Some PlanUpdateNotPossible
  else None.

(** Modelled from the spec: Update, declared in broker.go and implemented
    nowhere in the sources.  The request is validated against the catalog
    before the adapter is asked to reconfigure the instance. *)
Definition Update (A : Adapter) (C : CatalogModel) (id : UUID)
    (req : UpdateRequest) (acceptsIncomplete : bool) (s : broker)
  : result UpdateResponse * broker :=
  match Registry_Get id (reg s) with
  | Err f => (Err f, s)
  | Ok r =>
      match state_of r with
      | PROVISIONING => (Err (Fail ProvisionInProgress), s)
      | DEPROVISIONING => (Err (Fail DeprovisionInProgress), s)
      | UPDATING => (Err (Fail UpdateInProgress), s)
      | PROVISIONED =>
          match validate_update C req (instance r) with
          | Some k => (Err (Fail k), s)
          | None =>
              if acceptsIncomplete then
                match Tracker_Begin id KUpdate (trk s) with
                | Err f => (Err f, s)
                | Ok (token, t) =>
                    commit (Registry_Update id (set_lifecycle UPDATING))
                      {| ups_Operation := token |}
                      (dispatch token (TaskUpdate id req) (set_trk t s))
                end
              else if busy id (trk s) then (Err FailOperationInProgress, s)
              else
                let s1 :=
                  log_call (CallReconfigure (instance r) (ur_PlanID req)) s in
                match
                  Adapter_Reconfigure A (length (calls s)) (instance r)
                    (ur_PlanID req)
                with
                | Reported e => (Err (FailAdapter e), s1)
                | Done _ =>
                    commit (Registry_Update id (reconfigured req))
                      {| ups_Operation := "" |} s1
                end
          end
      end
  end.

(** Modelled from the spec: last-operation polling, declared in broker.go
    and implemented nowhere in the sources.  It returns the tracker's
    current status for the token, and fails with NotFound if the token is
    absent; the instance ID argument plays no part. *)
Definition LastOperation (id : UUID) (req : LastOperationRequest)
    (s : broker) : result LastOperationResponse :=
  match Tracker_Status (lor_Operation req) (trk s) with
  | Ok r =>
      Ok {| los_State := state_string (op_status r);
            los_Description := op_description r |}
  | Err f => Err f
  end.

(** Modelled from the spec: instance and binding lookup, declared in
    broker.go and implemented nowhere in the sources. *)
Definition GetServiceInstance (id : UUID) (s : broker)
  : result ServiceInstance :=
  match Registry_Get id (reg s) with
  | Ok r => Ok (instance r)
  | Err f => Err f
  end.

Definition GetBindInstance (id : UUID) (s : broker) : result BindInstance :=
  match Registry_GetBinding id (reg s) with
  | Ok r => Ok (binding r)
  | Err f => Err f
  end.

(** Modelled from the spec: catalog listing, declared in broker.go and
    implemented nowhere in the sources; the catalog is read-only. *)
Definition Catalog (C : CatalogModel) (s : broker) : result CatalogModel :=
  Ok C.

(** A registry change made by a background worker. *)
Definition worker_change (c : registry -> result registry) (s : broker)
  : broker :=
  match c (reg s) with
  | Ok g => set_reg g s
  | Err _ => s
  end.

(** The worker records the outcome and leaves the queue. *)
Definition finish (token : string) (o : outcome) (s : broker) : broker :=
  match Tracker_Complete token o (trk s) with
  | Ok t => retire token (set_trk t s)
  | Err _ => retire token s
  end.

(** Modelled from the spec: the background worker of an accepted
    operation, missing from the sources.  It makes the adapter call, moves
    the instance or binding to its next state and completes the operation
    record; an adapter error is recorded as the failed outcome, verbatim. *)
Definition run_task (A : Adapter) (token : string) (s : broker) : broker :=
  match queue s !! token with
  | None => s
  | Some w =>
      let n := length (calls s) in
      match Registry_Get (task_instance w) (reg s) with
      | Err _ => finish token (Failure "instance not found") s
      | Ok r =>
          let i := instance r in
          match w with
          | TaskProvision id =>
              let s1 := log_call (CallCreate i) s in
              match Adapter_Create A n i with
              | Done url =>
                  finish token Success
                    (worker_change (Registry_Update id (provisioned url)) s1)
              | Reported e =>
                  finish token (Failure e)
                    (worker_change (Registry_Delete id) s1)
              end
          | TaskDeprovision id =>
              let s1 := log_call (CallDestroy i) s in
              match Adapter_Destroy A n i with
              | Done _ =>
                  finish token Success (worker_change (Registry_Delete id) s1)
              | Reported e =>
                  finish token (Failure e)
                    (worker_change
                       (Registry_Update id (set_lifecycle PROVISIONED)) s1)
              end
          | TaskBind id binding_id =>
              match Registry_GetBinding binding_id (reg s) with
              | Err _ => finish token (Failure "binding not found") s
              | Ok br =>
                  let s1 := log_call (CallBind i (binding br)) s in
                  match Adapter_Bind A n i (binding br) with
                  | Done credentials =>
                      finish token Success
                        (worker_change
                           (Registry_UpdateBinding binding_id
                              (bound_with (bind_response credentials "")))
                           s1)
                  | Reported e =>
                      finish token (Failure e)
                        (worker_change
                           (both (Registry_DeleteBinding binding_id)
                              (Registry_Update id
                                 (remove_binding_id binding_id)))
                           s1)
                  end
              end
          | TaskUnbind id binding_id =>
              match Registry_GetBinding binding_id (reg s) with
              | Err _ => finish token (Failure "binding not found") s
              | Ok br =>
                  let s1 := log_call (CallUnbind i (binding br)) s in
                  match Adapter_Unbind A n i (binding br) with
                  | Done _ =>
                      finish token Success
                        (worker_change
                           (both (Registry_DeleteBinding binding_id)
                              (Registry_Update id
                                 (remove_binding_id binding_id)))
                           s1)
                  | Reported e =>
                      finish token (Failure e)
                        (worker_change
                           (Registry_UpdateBinding binding_id
                              (set_bstate BOUND))
                           s1)
                  end
              end
          | TaskUpdate id req =>
              let s1 := log_call (CallReconfigure i (ur_PlanID req)) s in
              match Adapter_Reconfigure A n i (ur_PlanID req) with
              | Done _ =>
                  finish token Success
                    (worker_change (Registry_Update id (reconfigured req)) s1)
              | Reported e =>
                  finish token (Failure e)
                    (worker_change
                       (Registry_Update id (set_lifecycle PROVISIONED)) s1)
              end
          end
      end
  end.

(** Modelled from the spec: retention of operation records, missing from
    the sources.  A completed record may be collected at any time after its
    completion; how long it is kept is left open. *)
Definition collect (token : string) (s : broker) : broker :=
  set_trk (Tracker_Collect token (trk s)) s.

(** What happens to the broker: the nine operations, the completion of a
    background task and the collection of an operation record.  Requests
    to one broker are taken one at a time. *)
Inductive event : Type :=
  | EvCatalog
  | EvProvision (id : UUID) (req : ProvisionRequest) (acceptsIncomplete : bool)
  | EvDeprovision (inst : ServiceInstance) (planID : string)
      (acceptsIncomplete : bool)
  | EvBind (inst : ServiceInstance) (binding_id : UUID) (req : BindRequest)
      (acceptsIncomplete : bool)
  | EvUnbind (inst : ServiceInstance) (b : BindInstance) (planID : string)
      (acceptsIncomplete : bool)
  | EvUpdate (id : UUID) (req : UpdateRequest) (acceptsIncomplete : bool)
  | EvLastOperation (id : UUID) (req : LastOperationRequest)
  | EvGetServiceInstance (id : UUID)
  | EvGetBindInstance (id : UUID)
  | EvWorker (token : string)
  | EvCollect (token : string).

Definition apply_event (A : Adapter) (C : CatalogModel) (s : broker) (e : event)
  : broker :=
  match e with
  | EvProvision id req ai => snd (Provision A id req ai s)
  | EvDeprovision inst plan ai => snd (Deprovision A inst plan ai s)
  | EvBind inst b req ai => snd (Bind A inst b req ai s)
  | EvUnbind inst b plan ai => snd (Unbind A inst b plan ai s)
  | EvUpdate id req ai => snd (Update A C id req ai s)
  | EvWorker token => run_task A token s
  | EvCollect token => collect token s
  | EvCatalog | EvLastOperation _ _ | EvGetServiceInstance _
  | EvGetBindInstance _ => s
  end.

Definition run (A : Adapter) (C : CatalogModel) (es : list event) (s : broker)
  : broker :=
  fold_left (apply_event A C) es s.

Definition reachable (A : Adapter) (C : CatalogModel) (s : broker) : Prop :=
  exists es, s = run A C es initial.

(** A string that is not empty. *)
Definition nonempty (s : string) : option string :=
  if decide (s = "") then None else Some s.

(** The operation token a call answers with when it starts new work that is
    accepted asynchronously. *)
Definition accepted_token (A : Adapter) (C : CatalogModel) (s : broker)
    (e : event) : option string :=
  match e with
  | EvProvision id req ai =>
      match fst (Provision A id req ai s) with
      | Ok resp => nonempty (prs_Operation resp)
      | Err _ => None
      end
  | EvDeprovision inst plan ai =>
      match fst (Deprovision A inst plan ai s) with
      | Ok resp => nonempty (dps_Operation resp)
      | Err _ => None
      end
  | EvBind inst b req ai =>
      match Registry_GetBinding b (reg s), fst (Bind A inst b req ai s) with
      | Err _, Ok resp => nonempty (brs_Operation resp)
      | _, _ => None
      end
  | EvUnbind inst b plan ai =>
      match fst (Unbind A inst b plan ai s) with
      | Ok resp => nonempty (ubs_Operation resp)
      | Err _ => None
      end
  | EvUpdate id req ai =>
      match fst (Update A C id req ai s) with
      | Ok resp => nonempty (ups_Operation resp)
      | Err _ => None
      end
  | _ => None
  end.

(** The instance a call is made on. *)
Definition event_instance (e : event) : option UUID :=
  match e with
  | EvProvision id _ _ | EvUpdate id _ _ => Some id
  | EvDeprovision inst _ _ | EvBind inst _ _ _ | EvUnbind inst _ _ _ =>
      Some (si_ID inst)
  | _ => None
  end.

(** The event takes the record of token [T] out of the tracker: it collects
    the completed record, or it is a call on the instance of the record's
    operation that is accepted asynchronously, whose new operation
    supersedes the record. *)
Definition drops (A : Adapter) (C : CatalogModel) (s : broker) (T : string)
    (e : event) : bool :=
  match records (trk s) !! T with
  | None => false
  | Some r =>
      match e with
      | EvCollect T' =>
          bool_decide (T' = T) && negb (bool_decide (op_status r = InProgress))
      | _ =>
          match accepted_token A C s e, event_instance e with
          | Some _, Some id => bool_decide (op_instance r = id)
          | _, _ => false
          end
      end
  end.

(** Some event of the run, taken in the state it happens in, drops the
    record of [T]. *)
Fixpoint dropped_in (A : Adapter) (C : CatalogModel) (T : string)
    (es : list event) (s : broker) : bool :=
  match es with
  | [] => false
  | e :: es => drops A C s T e || dropped_in A C T es (apply_event A C s e)
  end.

(** The event is neither a call on instance [X] nor the worker of a task
    dispatched for [X]. *)
Definition elsewhere (X : UUID) (s : broker) (e : event) : Prop :=
  match e with
  | EvWorker T =>
      match queue s !! T with
      | Some w => task_instance w <> X
      | None => True
      end
  | _ => event_instance e <> Some X
  end.

(** Every event of the run, taken in the state it happens in, is
    elsewhere. *)
Fixpoint run_elsewhere (A : Adapter) (C : CatalogModel) (X : UUID)
    (es : list event) (s : broker) : Prop :=
  match es with
  | [] => True
  | e :: es =>
      elsewhere X s e /\ run_elsewhere A C X es (apply_event A C s e)
  end.

(** ** What the core keeps true

    The predicates and step relations used to state and prove the
    properties of the core. *)

(** The token was handed out by the tracker. *)
Definition issued_token (t : tracker) (T : string) : Prop :=
  exists n, n < issued t /\ T = token_of n.

(** Every record is filed under a token the tracker handed out. *)
Definition tracker_fresh (t : tracker) : Prop :=
  forall T r, records t !! T = Some r -> issued_token t T.

(** At most one unfinished operation for each instance. *)
Definition one_active (t : tracker) : Prop :=
  forall T T' r r',
    records t !! T = Some r -> records t !! T' = Some r' ->
    op_status r = InProgress -> op_status r' = InProgress ->
    op_instance r = op_instance r' -> T = T'.

(** One step of the tracker: nothing, a [Begin], a [Complete] or the
    collection of a record. *)
Inductive tracker_step (t : tracker) : tracker -> Prop :=
  | ts_same : tracker_step t t
  | ts_begin id k T t' :
      Tracker_Begin id k t = Ok (T, t') -> tracker_step t t'
  | ts_complete T o t' :
      Tracker_Complete T o t = Ok t' -> tracker_step t t'
  | ts_collect T : tracker_step t (Tracker_Collect T t).

(** Every binding is owned by an instance that has a record, and that
    record lists the binding. *)
Definition bindings_owned (g : registry) : Prop :=
  forall bid br,
    bindings g !! bid = Some br ->
    exists r, instances g !! bi_ServiceID (binding br) = Some r
              /\ is_Some (si_BindingIDs (instance r) !! bid).

(** An instance being provisioned or deprovisioned has no bindings. *)
Definition unbound_in_transit (g : registry) : Prop :=
  forall id r,
    instances g !! id = Some r ->
    state_of r = PROVISIONING \/ state_of r = DEPROVISIONING ->
    si_BindingIDs (instance r) = ∅.

(** What the registry keeps true. *)
Definition reg_ok (g : registry) : Prop :=
  bindings_owned g /\ unbound_in_transit g.

(** The changes the orchestrator and its workers make to the registry, all
    at one instance. *)
Inductive rchange (id : UUID) (g : registry) : registry -> Prop :=
  | rc_put r :
      instances g !! id = None -> si_BindingIDs (instance r) = ∅ ->
      rchange id g
        {| instances := <[id := r]> (instances g); bindings := bindings g |}
  | rc_update r r' :
      instances g !! id = Some r ->
      si_BindingIDs (instance r') = si_BindingIDs (instance r) ->
      (state_of r' = PROVISIONING \/ state_of r' = DEPROVISIONING ->
       si_BindingIDs (instance r) = ∅) ->
      rchange id g
        {| instances := <[id := r']> (instances g); bindings := bindings g |}
  | rc_delete r :
      instances g !! id = Some r -> si_BindingIDs (instance r) = ∅ ->
      rchange id g
        {| instances := delete id (instances g); bindings := bindings g |}
  | rc_bind r bid br :
      instances g !! id = Some r -> state_of r = PROVISIONED ->
      bi_ServiceID (binding br) = id ->
      rchange id g
        {| instances := <[id := add_binding_id bid r]> (instances g);
           bindings := <[bid := br]> (bindings g) |}
  | rc_unbind r bid :
      instances g !! id = Some r ->
      rchange id g
        {| instances := <[id := remove_binding_id bid r]> (instances g);
           bindings := delete bid (bindings g) |}
  | rc_binding bid br br' :
      bindings g !! bid = Some br -> binding br' = binding br ->
      rchange id g
        {| instances := instances g;
           bindings := <[bid := br']> (bindings g) |}.

(** The state an instance is in while a task on it is dispatched. *)
Definition task_state_ok (w : task) (g : registry) : Prop :=
  forall r,
    instances g !! task_instance w = Some r ->
    match w with
    | TaskProvision _ => state_of r = PROVISIONING
    | TaskDeprovision _ => state_of r = DEPROVISIONING
    | _ => True
    end.

(** What a call on instance [id] does to the broker: nothing to the stores,
    a registry change made while no operation is in flight for [id], or an
    accepted operation with its registry change and its dispatched task. *)
Inductive effect (id : UUID) (s s' : broker) : Prop :=
  | eff_none :
      reg s' = reg s -> trk s' = trk s -> queue s' = queue s ->
      effect id s s'
  | eff_sync :
      busy id (trk s) = false -> rchange id (reg s) (reg s') ->
      trk s' = trk s -> queue s' = queue s ->
      effect id s s'
  | eff_async k T w :
      Tracker_Begin id k (trk s) = Ok (T, trk s') ->
      task_instance w = id -> rchange id (reg s) (reg s') ->
      task_state_ok w (reg s') ->
      queue s' = <[T := w]> (queue s) ->
      effect id s s'.

(** Every dispatched task has an operation record, still in progress, for
    the instance it works on. *)
Definition tasks_tracked (s : broker) : Prop :=
  forall T w,
    queue s !! T = Some w ->
    exists r, records (trk s) !! T = Some r /\ op_status r = InProgress
              /\ op_instance r = task_instance w.

(** Every dispatched task finds its instance in the state it was
    dispatched in. *)
Definition tasks_in_state (s : broker) : Prop :=
  forall T w, queue s !! T = Some w -> task_state_ok w (reg s).

(** What every state the broker reaches keeps true. *)
Definition invariant (s : broker) : Prop :=
  reg_ok (reg s) /\ tracker_fresh (trk s) /\ one_active (trk s) /\
  tasks_tracked s /\ tasks_in_state s.

(** ** Sample data *)

Definition demo_adapter : Adapter :=
  {| Adapter_Create := fun _ i => Done ("https://dashboard/" +:+ si_ID i);
     Adapter_Destroy := fun _ _ => Done tt;
     Adapter_Bind := fun _ _ b => Done {[ "binding" := AString (bi_ID b) ]};
     Adapter_Unbind := fun _ _ _ => Done tt;
     Adapter_Reconfigure := fun _ _ _ => Done tt |}.

Definition demo_catalog : CatalogModel :=
  {| plan_exists := fun p => bool_decide (p = "P1") || bool_decide (p = "P2");
     parameter_recognized := fun _ _ => true;
     parameter_updatable := fun _ _ => true;
     plan_updates_to := fun p q => bool_decide (p = "P1" /\ q = "P2") |}.

Definition demo_context : Context :=
  {| Platform := "kubernetes"; Namespace := "default" |}.

Definition demo_provision : ProvisionRequest :=
  {| pr_OrganizationID := "org"; pr_PlanID := "P1"; pr_ServiceID := "S1";
     pr_SpaceID := "space"; pr_Context := demo_context;
     pr_Parameters := {[ "size" := ANumber 3 ]};
     pr_AcceptsIncomplete := false |}.

Definition demo_bind : BindRequest :=
  {| br_ServiceID := "S1"; br_PlanID := "P1"; br_AppID := "app";
     br_BindResource := {| bres_AppID := "app"; bres_Route := "" |};
     br_Parameters := ∅ |}.

Definition demo_instance (id : UUID) : ServiceInstance :=
  new_instance id demo_provision.

Definition poll (token : string) : LastOperationRequest :=
  {| lor_ServiceID := "S1"; lor_PlanID := "P1"; lor_Operation := token |}.

Definition demo_update : UpdateRequest :=
  {| ur_ServiceID := "S1"; ur_PlanID := "P2";
     ur_Parameters := {[ "size" := "5" ]};
     ur_PreviousValues :=
       {| pv_PlanID := "P1"; pv_ServiceID := "S1";
          pv_OrganizationID := "org"; pv_SpaceID := "space" |};
     ur_Context := demo_context; ur_AcceptsIncomplete := false |}.

(** The catalog above without its update edge from P1 to P2. *)
Definition closed_catalog : CatalogModel :=
  {| plan_exists := plan_exists demo_catalog;
     parameter_recognized := parameter_recognized demo_catalog;
     parameter_updatable := parameter_updatable demo_catalog;
     plan_updates_to := fun _ _ => false |}.

(** A broker in which instance I1 is provisioned and bound once. *)
Definition bound_broker : broker :=
  run demo_adapter demo_catalog
    [EvProvision "I1" demo_provision false;
     EvBind (demo_instance "I1") "B1" demo_bind false]
    initial.

(** ** Type references *)

(** The types of package osb that a type names, in order of appearance. *)
Fixpoint named (t : gotype) : list string :=
  match t with
  | TNamed "" name => [name]
  | TPtr t | TSlice t => named t
  | TMap k v => (named k ++ named v)%list
  | TStruct fields =>
      (fix go (fs : list (string * gotype)) : list string :=
         match fs with
         | [] => []
         | (_, t) :: fs => (named t ++ go fs)%list
         end) fields
  | _ => []
  end.

(** A type with every name of package osb replaced by its declaration, as
    deep as [fuel] allows; [None] when a name has no declaration or the
    unfolding goes deeper than [fuel]. *)
Fixpoint expand (fuel : nat) (t : gotype) : option gotype :=
  match fuel with
  | 0 => None
  | S fuel =>
      match t with
      | TNamed "" name =>
          match type_of_name name with
          | Some d => expand fuel d
          | None => None
          end
      | TPtr t => TPtr <$> expand fuel t
      | TSlice t => TSlice <$> expand fuel t
      | TMap k v =>
          match expand fuel k, expand fuel v with
          | Some k, Some v => Some (TMap k v)
          | _, _ => None
          end
      | TStruct fields =>
          TStruct <$>
            (fix go (fs : list (string * gotype))
               : option (list (string * gotype)) :=
               match fs with
               | [] => Some []
               | (f, t) :: fs =>
                   match expand fuel t, go fs with
                   | Some t, Some fs => Some ((f, t) :: fs)
                   | _, _ => None
                   end
               end) fields
      | _ => Some t
      end
  end.

(** The struct type a result of the form [*T] points to. *)
Definition response_type (m : method) : option string :=
  match m_results m with
  | TPtr (TNamed "" name) :: _ => Some name
  | _ => None
  end.

(** ** types.go: the json tags

    A struct of types.go, or the anonymous struct type of one of its
    fields. *)
Inductive struct_ref : Type :=
  | Top (name : string)
  | Inner (name field : string).

Definition fields_at (r : struct_ref) : option (list (string * gotype)) :=
  match r with
  | Top name =>
      match type_of_name name with
      | Some (TStruct fields) => Some fields
      | _ => None
      end
  | Inner name field =>
      match field_type name field with
      | Some (TStruct fields) => Some fields
      | _ => None
      end
  end.

(** The tag [json:"name"] or [json:"name,omitempty"] of a field. *)
Record json_tag : Type := Json {
  jt_field : string;
  jt_name : string;
  jt_omitempty : bool
}.

Definition json_tags : list (struct_ref * list json_tag) := [
  (Top "Context",
   [Json "Platform" "platform" false; Json "Namespace" "namespace" false]);
  (Top "ServiceInstance",
   [Json "ID" "id" false; Json "PlanID" "plan_id" false;
    Json "Context" "context" false; Json "Parameters" "parameters" false;
    Json "BindingIDs" "binding_ids" false]);
  (Top "BindInstance",
   [Json "ID" "id" false; Json "ServiceID" "service_id" false;
    Json "Parameters" "parameters" false]);
  (Top "DashboardClient",
   [Json "ID" "id" false; Json "Secret" "secret" false;
    Json "RedirectURI" "redirect_uri" false]);
  (Top "Service",
   [Json "Name" "name" false; Json "ID" "id" false;
    Json "Description" "description" false; Json "Tags" "tags" true;
    Json "Requires" "requires" true; Json "Bindable" "bindable" false;
    Json "Metadata" "metadata" true;
    Json "DashboardClient" "dashboard_client" true;
    Json "PlanUpdatable" "plan_updateable" true;
    Json "Plans" "plans" false]);
  (Top "Plan",
   [Json "ID" "id" false; Json "Name" "name" false;
    Json "Description" "description" false; Json "Metadata" "metadata" true;
    Json "Free" "free" true; Json "Bindable" "bindable" true;
    Json "Schemas" "schemas" true; Json "UpdatesTo" "updates_to" true]);
  (Top "ServiceInstanceSchema",
   [Json "Create" "create" false; Json "Update" "update" false]);
  (Top "ServiceBindingSchema", [Json "Create" "create" false]);
  (Top "Schema",
   [Json "ServiceInstance" "service_instance" false;
    Json "ServiceBinding" "service_binding" false]);
  (Top "CatalogResponse", [Json "Services" "services" false]);
  (Top "ProvisionRequest",
   [Json "OrganizationID" "organization_guid" false;
    Json "PlanID" "plan_id" false; Json "ServiceID" "service_id" false;
    Json "SpaceID" "space_guid" false; Json "Context" "context" false;
    Json "Parameters" "parameters" true;
    Json "AcceptsIncomplete" "accepts_incomplete" true]);
  (Top "ProvisionResponse",
   [Json "DashboardURL" "dashboard_url" true;
    Json "Operation" "operation" true]);
  (Top "DeprovisionResponse", [Json "Operation" "operation" true]);
  (Top "BindRequest",
   [Json "ServiceID" "service_id" false; Json "PlanID" "plan_id" false;
    Json "AppID" "app_guid" true; Json "BindResource" "bind_resource" true;
    Json "Parameters" "parameters" true]);
  (Inner "BindRequest" "BindResource",
   [Json "AppID" "app_guid" true; Json "Route" "route" true]);
  (Top "BindResponse",
   [Json "Credentials" "credentials" true;
    Json "SyslogDrainURL" "syslog_drain_url" true;
    Json "RouteServiceURL" "route_service_url" true;
    Json "VolumeMounts" "volume_mounts" true;
    Json "Operation" "operation" true]);
  (Top "UnbindResponse", [Json "Operation" "operation" true]);
  (Top "UpdateRequest",
   [Json "ServiceID" "service_id" false; Json "PlanID" "plan_id" true;
    Json "Parameters" "parameters" true;
    Json "PreviousValues" "previous_values" true;
    Json "Context" "context" false;
    Json "AcceptsIncomplete" "accepts_incomplete" true]);
  (Inner "UpdateRequest" "PreviousValues",
   [Json "PlanID" "plan_id" true; Json "ServiceID" "service_id" true;
    Json "OrganizationID" "organization_id" true;
    Json "SpaceID" "space_id" true]);
  (Top "UpdateResponse", [Json "Operation" "operation" true]);
  (Top "LastOperationRequest",
   [Json "ServiceID" "service_id" false; Json "PlanID" "plan_id" false;
    Json "Operation" "operation" false]);
  (Top "LastOperationResponse",
   [Json "State" "state" false; Json "Description" "description" true]);
  (Top "ServiceInstanceResponse",
   [Json "ServiceID" "service_id" false; Json "PlanID" "plan_id" false;
    Json "DashboardURL" "dashboard_url" true;
    Json "Parameters" "parameters" true]);
  (Top "ErrorResponse", [Json "Description" "description" false])
].

#[global] Instance struct_ref_eq_dec : EqDecision struct_ref.
Proof. solve_decision. Defined.

Definition tags_at (r : struct_ref) : option (list json_tag) :=
  snd <$> List.find (fun d => bool_decide (fst d = r)) json_tags.

(** ** The Makefile

    Its rules, each with its target and prerequisites; the recipes are left
    out.  A prerequisite is the name of a target or a reference to a
    variable ([$(SOURCES)], the Go files found in the tree). *)
Inductive prerequisite : Type :=
  | PTarget (name : string)
  | PVariable (name : string).

Record rule : Type := Rule {
  rule_target : string;
  rule_prerequisites : list prerequisite
}.

Definition Makefile : list rule := [
  Rule "hydrodemo" [PVariable "SOURCES"];
  Rule "build" [PTarget "hydrodemo"];
  Rule "lint" [];
  Rule "fmt" [];
  Rule "fmtcheck" [];
  Rule "test" [];
  Rule "vet" [];
  Rule "check"
       [PTarget "fmtcheck"; PTarget "vet"; PTarget "lint"; PTarget "build";
        PTarget "test"];
  Rule "run" [PTarget "broker"];
  Rule "clean" []
].


Definition PHONY : list string :=
  ["run"; "lint"; "build"; "fmt"; "fmtcheck"; "test"; "vet"].

Definition find_rule (target : string) : option rule :=
  List.find (fun r => String.eqb (rule_target r) target) Makefile.

(** * The declarations of pkg/osb *)

(** C1, as stated, fails: the taxonomy's AdapterFailure has no error value
    in the package. *)
Lemma AdapterFailure_has_no_error_value :
  declared_error AdapterFailure = None.
Proof. reflexivity. Qed.

(** C1, amended: every kind of the taxonomy other than AdapterFailure has an
    error value declared in the package, and two kinds never share one (the
    values differ as pointers, and their texts differ too); AdapterFailure
    has none. *)
Theorem taxonomy_errors_declared :
  (forall k, k <> AdapterFailure -> exists e, declared_error k = Some e) /\
  (forall k1 k2 e1 e2,
      declared_error k1 = Some e1 -> declared_error k2 = Some e2 ->
      error_eqb e1 e2 = true \/ err_text e1 = err_text e2 -> k1 = k2) /\
  declared_error AdapterFailure = None.
Proof.
  split; [|split].
  - intros k Hk. destruct k; try (eexists; reflexivity). congruence.
  - intros k1 k2 e1 e2 H1 H2 H.
    destruct k1; vm_compute in H1; try discriminate H1;
      injection H1 as <-;
      destruct k2; vm_compute in H2; try discriminate H2;
      injection H2 as <-; try reflexivity;
      vm_compute in H; destruct H; discriminate.
  - reflexivity.
Qed.

Lemma taxonomy_errors_declared_witness :
  exists e, declared_error NotFound = Some e.
Proof.
  destruct taxonomy_errors_declared as (H & _ & _). by apply H.
Defined.

(** C2: the interface declares nine operations, one for each operation the
    specification names and no other. *)
Theorem interface_declares_the_nine_operations :
  length OpenServiceBroker = 9 /\
  m_name <$> OpenServiceBroker = operation_method <$> all_operations /\
  NoDup (m_name <$> OpenServiceBroker) /\
  (forall op, op ∈ all_operations) /\
  (forall m, m ∈ OpenServiceBroker ->
             exists op, m_name m = operation_method op).
Proof.
  split; [reflexivity|]. split; [reflexivity|]. split; [|split].
  - apply (bool_decide_unpack _). by vm_compute.
  - intros op. unfold all_operations. destruct op; set_solver.
  - intros m Hm. unfold OpenServiceBroker in Hm.
    repeat (apply elem_of_cons in Hm as [-> | Hm];
            [first [ by exists OpCatalog | by exists OpProvision
                   | by exists OpDeprovision | by exists OpBind
                   | by exists OpUnbind | by exists OpUpdate
                   | by exists OpLastOperation
                   | by exists OpGetServiceInstance
                   | by exists OpGetBindInstance ] |]).
    by apply elem_of_nil in Hm.
Qed.

(** C3: each of provision, deprovision, bind, unbind and update takes one
    bool and one context.Context; catalog, last-operation, get-instance and
    get-binding take neither. *)
Theorem mutating_operations_take_flag_and_context (op : broker_operation) :
  exists m,
    find_method (operation_method op) = Some m /\
    if state_mutating op
    then count_params is_bool m = 1 /\ count_params is_context m = 1
    else count_params is_bool m = 0 /\ count_params is_context m = 0.
Proof. destruct op; eexists; (split; [reflexivity|]); by vm_compute. Qed.

(** C9: Bind is the one operation with three results, a pointer to
    BindResponse, a bool and an error; every other operation returns a
    pointer and an error. *)
Theorem only_Bind_returns_three_values (op : broker_operation) :
  exists m,
    find_method (operation_method op) = Some m /\
    match op with
    | OpBind => m_results m = [TPtr (osb "BindResponse"); TBool; TError]
    | _ => exists t, m_results m = [TPtr t; TError]
    end.
Proof.
  destruct op; eexists; (split; [reflexivity|]);
    first [reflexivity | eexists; reflexivity].
Qed.

(** C10: UpdateRequest.Parameters is a map[string]string, so every
    parameter value of an update request is a string, while provision and
    bind requests use Parameters, a map[string]interface{}, which also holds
    values that are not strings. *)
Theorem update_parameters_are_strings :
  field_type "UpdateRequest" "Parameters" = Some (TMap TString TString) /\
  field_type "ProvisionRequest" "Parameters" = Some (osb "Parameters") /\
  field_type "BindRequest" "Parameters" = Some (osb "Parameters") /\
  underlying (osb "Parameters") = Some (TMap TString TEmptyInterface) /\
  (forall (u : UpdateRequest) k v,
      update_parameters u !! k = Some v -> exists s, v = AString s) /\
  (exists (p : ProvisionRequest) k v,
      pr_Parameters p !! k = Some v /\ forall s, v <> AString s) /\
  (exists (b : BindRequest) k v,
      br_Parameters b !! k = Some v /\ forall s, v <> AString s).
Proof.
  repeat (split; [reflexivity|]). split; [|split].
  - intros u k v. unfold update_parameters. rewrite lookup_fmap.
    destruct (ur_Parameters u !! k) as [s|]; simpl; [|done].
    intros [= <-]. by exists s.
  - exists demo_provision, "size", (ANumber 3). split; [reflexivity|done].
  - exists {| br_ServiceID := "S1"; br_PlanID := "P1"; br_AppID := "app";
              br_BindResource := {| bres_AppID := "app"; bres_Route := "" |};
              br_Parameters := {[ "admin" := ABool true ]} |},
      "admin", (ABool true).
    split; [reflexivity|done].
Qed.

(** * The provisioning core *)

(** The scenarios of the specification, run on the core. *)

Example scenario_provision_synchronously :
  let '(r, s) := Provision demo_adapter "I1" demo_provision false initial in
  r = Ok {| prs_DashboardURL := "https://dashboard/I1"; prs_Operation := "" |}
  /\ calls s = [CallCreate (demo_instance "I1")]
  /\ state_of <$> instances (reg s) !! "I1" = Some PROVISIONED.
Proof. vm_compute. by repeat split. Qed.

Example scenario_provision_asynchronously :
  let '(r, s) := Provision demo_adapter "I2" demo_provision true initial in
  let s' := run_task demo_adapter "op-0" s in
  r = Ok {| prs_DashboardURL := ""; prs_Operation := "op-0" |}
  /\ calls s = []
  /\ LastOperation "I2" (poll "op-0") s
     = Ok {| los_State := "in progress"; los_Description := "" |}
  /\ calls s' = [CallCreate (demo_instance "I2")]
  /\ LastOperation "I2" (poll "op-0") s'
     = Ok {| los_State := "succeeded"; los_Description := "" |}.
Proof. vm_compute. by repeat split. Qed.

Example scenario_provision_with_other_parameters :
  let s := snd (Provision demo_adapter "I1" demo_provision false initial) in
  let req :=
    {| pr_OrganizationID := "org"; pr_PlanID := "P1"; pr_ServiceID := "S1";
       pr_SpaceID := "space"; pr_Context := demo_context;
       pr_Parameters := {[ "size" := ANumber 4 ]};
       pr_AcceptsIncomplete := false |} in
  Provision demo_adapter "I1" req false s = (Err (Fail AlreadyProvisioned), s).
Proof. vm_compute. reflexivity. Qed.

Example scenario_update_without_edge :
  let s := snd (Provision demo_adapter "I1" demo_provision false initial) in
  Update demo_adapter closed_catalog "I1" demo_update false s
  = (Err (Fail PlanUpdateNotPossible), s)
  /\ GetServiceInstance "I1" s = Ok (demo_instance "I1").
Proof. vm_compute. by split. Qed.

Lemma token_of_not_empty (n : nat) : token_of n <> "".
Proof. unfold token_of. simpl. discriminate. Qed.

(** C5: for an instance whose record has a non-empty binding set,
    Deprovision fails with BindingExists and leaves the broker, and with it
    the instance's record, as it was. *)
Theorem deprovision_with_bindings_fails (A : Adapter) (s : broker)
    (inst : ServiceInstance) (r : InstanceRecord) (planID : string)
    (acceptsIncomplete : bool) :
  instances (reg s) !! si_ID inst = Some r ->
  si_BindingIDs (instance r) <> ∅ ->
  Deprovision A inst planID acceptsIncomplete s
  = (Err (Fail BindingExists), s).
Proof.
  intros Hr Hne. unfold Deprovision, Registry_Get. rewrite Hr.
  destruct (decide (si_BindingIDs (instance r) = ∅)); [done|reflexivity].
Qed.

Lemma deprovision_with_bindings_fails_witness :
  Deprovision demo_adapter (demo_instance "I1") "P1" false bound_broker
  = (Err (Fail BindingExists), bound_broker).
Proof.
  eapply deprovision_with_bindings_fails.
  - vm_compute. reflexivity.
  - vm_compute. discriminate.
Defined.

(** ** The Operation Tracker *)

Lemma token_of_inj (n m : nat) : token_of n = token_of m -> n = m.
Proof.
  unfold token_of. intros H. apply (inj (String.app "op-")) in H.
  by apply (inj pretty) in H.
Qed.

Lemma busy_true (id : UUID) (t : tracker) :
  busy id t = true <->
  exists T r, records t !! T = Some r /\ op_instance r = id
              /\ op_status r = InProgress.
Proof.
  unfold busy. rewrite bool_decide_eq_true. unfold map_Exists, unfinished.
  split.
  - intros (T & r & Hr & H). apply andb_true_iff in H as [H1 H2].
    apply bool_decide_eq_true in H1, H2. eauto.
  - intros (T & r & Hr & H1 & H2). exists T, r. split; [done|].
    apply andb_true_iff. by rewrite !bool_decide_eq_true.
Qed.

Lemma busy_false (id : UUID) (t : tracker) (T : string)
    (r : OperationRecord) :
  busy id t = false -> records t !! T = Some r ->
  op_status r = InProgress -> op_instance r <> id.
Proof.
  intros Hb Hr Hs Hi.
  assert (busy id t = true) as E by (apply busy_true; eauto).
  congruence.
Qed.

Lemma Tracker_Begin_Ok (id : UUID) (k : op_kind) (t t' : tracker)
    (T : string) :
  Tracker_Begin id k t = Ok (T, t') ->
  busy id t = false /\ T = token_of (issued t) /\ issued t' = S (issued t) /\
  records t'
  = <[T := {| op_instance := id; op_what := k; op_status := InProgress;
              op_description := "" |}]>
      (filter (fun kr => op_instance (snd kr) <> id) (records t)).
Proof.
  unfold Tracker_Begin. destruct (busy id t); [done|].
  intros [= <- <-]. done.
Qed.

Lemma Tracker_Complete_Ok (T : string) (o : outcome) (t t' : tracker) :
  Tracker_Complete T o t = Ok t' ->
  issued t' = issued t /\
  exists r,
    records t !! T = Some r /\
    let finished :=
      {| op_instance := op_instance r; op_what := op_what r;
         op_status := outcome_state o;
         op_description := outcome_description o |} in
    (op_status r = InProgress /\ records t' = <[T := finished]> (records t)
     \/ op_status r <> InProgress /\ r = finished /\ t' = t).
Proof.
  unfold Tracker_Complete. destruct (records t !! T) as [r|] eqn:Hr; [|done].
  destruct (op_status r) eqn:Hs.
  - intros [= <-]. simpl. split; [done|]. exists r. split; [done|]. by left.
  - destruct (decide _) as [E|]; [|done]. intros [= <-].
    split; [done|]. exists r. split; [done|]. right.
    split; [by rewrite Hs|]. by split.
  - destruct (decide _) as [E|]; [|done]. intros [= <-].
    split; [done|]. exists r. split; [done|]. right.
    split; [by rewrite Hs|]. by split.
Qed.

Lemma outcome_state_terminal (o : outcome) : outcome_state o <> InProgress.
Proof. by destruct o. Qed.

Lemma Tracker_Collect_lookup (T T' : string) (t : tracker) :
  issued (Tracker_Collect T t) = issued t /\
  (records (Tracker_Collect T t) !! T' = records t !! T'
   \/ records (Tracker_Collect T t) !! T' = None /\
      exists r, records t !! T' = Some r /\ op_status r <> InProgress).
Proof.
  unfold Tracker_Collect. destruct (records t !! T) as [r|] eqn:Hr;
    [|by split; [|left]].
  destruct (op_status r) eqn:Hs; simpl; (split; [done|]);
    try (by left);
    (destruct (decide (T = T')) as [<-|Hne];
     [right; rewrite lookup_delete_eq; split; [done|];
      exists r; split; [done|]; by rewrite Hs
     |left; by rewrite lookup_delete_ne]).
Qed.

Lemma fresh_next_token (t : tracker) :
  tracker_fresh t -> records t !! token_of (issued t) = None.
Proof.
  intros Hf. destruct (records t !! token_of (issued t)) as [r|] eqn:Hr;
    [|done].
  destruct (Hf _ _ Hr) as (n & Hn & E). apply token_of_inj in E. lia.
Qed.

Lemma issued_token_next (t : tracker) (T : string) :
  issued_token t T -> T <> token_of (issued t).
Proof. intros (n & Hn & ->) E. apply token_of_inj in E. lia. Qed.

(** What one step of the tracker does to the record of a token. *)
Lemma tracker_step_record (t t' : tracker) (T : string) :
  tracker_fresh t -> tracker_step t t' ->
  issued t <= issued t' /\
  match records t !! T with
  | Some r =>
      match op_status r with
      | InProgress =>
          records t' !! T = Some r \/
          exists o,
            records t' !! T
            = Some {| op_instance := op_instance r; op_what := op_what r;
                      op_status := outcome_state o;
                      op_description := outcome_description o |}
      | _ => records t' !! T = Some r \/ records t' !! T = None
      end
  | None =>
      records t' !! T = None \/
      T = token_of (issued t) /\ issued t' = S (issued t) /\
      exists r, records t' !! T = Some r /\ op_status r = InProgress
                /\ op_description r = "" /\ busy (op_instance r) t = false
  end.
Proof.
  intros Hf Hstep. destruct Hstep as [|id k Tn t' Hb|Tc o t' Hc|Tc].
  - split; [lia|]. destruct (records t !! T) as [r|]; [|by left].
    destruct (op_status r); by left.
  - apply Tracker_Begin_Ok in Hb as (Hbusy & -> & Hi & Hrec).
    split; [lia|]. rewrite Hrec.
    destruct (decide (token_of (issued t) = T)) as [<-|Hne].
    + rewrite (fresh_next_token t Hf), lookup_insert_eq. right.
      split; [done|]. split; [done|]. by eexists.
    + rewrite lookup_insert_ne by done.
      destruct (records t !! T) as [r|] eqn:Hr.
      * destruct (op_status r) eqn:Hs.
        -- left. apply map_lookup_filter_Some. split; [done|]. simpl.
           by eapply busy_false.
        -- destruct (decide (op_instance r = id)).
           ++ right. apply map_lookup_filter_None. right.
              intros r' Hr'. simpl. congruence.
           ++ left. by apply map_lookup_filter_Some.
        -- destruct (decide (op_instance r = id)).
           ++ right. apply map_lookup_filter_None. right.
              intros r' Hr'. simpl. congruence.
           ++ left. by apply map_lookup_filter_Some.
      * left. apply map_lookup_filter_None. by left.
  - apply Tracker_Complete_Ok in Hc as (Hi & r0 & Hr0 & Hcase).
    split; [lia|]. simpl in Hcase.
    destruct Hcase as [[Hs Hrec]|(Hs & _ & ->)].
    + rewrite Hrec. destruct (decide (Tc = T)) as [<-|Hne].
      * rewrite Hr0, Hs, lookup_insert_eq. right. by exists o.
      * rewrite lookup_insert_ne by done.
        destruct (records t !! T) as [r|]; [|by left].
        destruct (op_status r); by left.
    + destruct (records t !! T) as [r|]; [|by left].
      destruct (op_status r); by left.
  - destruct (Tracker_Collect_lookup Tc T t) as [Hi [E|(E & r & Hr & Hs)]].
    + split; [lia|]. rewrite E.
      destruct (records t !! T) as [r|]; [|by left].
      destruct (op_status r); by left.
    + split; [lia|]. rewrite Hr, E.
      destruct (op_status r); [done|by right|by right].
Qed.

Lemma tracker_step_fresh (t t' : tracker) :
  tracker_fresh t -> tracker_step t t' -> tracker_fresh t'.
Proof.
  intros Hf Hstep T r' Hr'.
  destruct (tracker_step_record t t' T Hf Hstep) as [Hle H].
  destruct (records t !! T) as [r|] eqn:Hr.
  - destruct (Hf _ _ Hr) as (n & Hn & ->). exists n. split; [lia|done].
  - destruct H as [E|(-> & Hi & _)]; [congruence|].
    exists (issued t). split; [lia|done].
Qed.

Lemma tracker_step_issued (t t' : tracker) (T : string) :
  tracker_fresh t -> tracker_step t t' ->
  issued_token t T -> issued_token t' T.
Proof.
  intros Hf Hstep (n & Hn & ->).
  destruct (tracker_step_record t t' (token_of n) Hf Hstep) as [Hle _].
  exists n. split; [lia|done].
Qed.

(** A token that was handed out and has no record any more never gets one
    again. *)
Lemma tracker_step_dropped (t t' : tracker) (T : string) :
  tracker_fresh t -> tracker_step t t' ->
  issued_token t T -> records t !! T = None -> records t' !! T = None.
Proof.
  intros Hf Hstep Hi Hr.
  destruct (tracker_step_record t t' T Hf Hstep) as [_ H].
  rewrite Hr in H. destruct H as [E|(E & _)]; [done|].
  by apply issued_token_next in Hi.
Qed.

(** A completed record stays as it is until it is dropped. *)
Lemma tracker_step_settled (t t' : tracker) (T : string)
    (r : OperationRecord) :
  tracker_fresh t -> tracker_step t t' ->
  records t !! T = Some r -> op_status r <> InProgress ->
  records t' !! T = Some r \/ records t' !! T = None.
Proof.
  intros Hf Hstep Hr Hs.
  destruct (tracker_step_record t t' T Hf Hstep) as [_ H].
  rewrite Hr in H. by destruct (op_status r).
Qed.

Lemma Tracker_Begin_keeps (id : UUID) (k : op_kind) (t t' : tracker)
    (T T' : string) (r : OperationRecord) :
  tracker_fresh t -> Tracker_Begin id k t = Ok (T, t') ->
  records t !! T' = Some r -> op_status r = InProgress ->
  T' <> T /\ records t' !! T' = Some r /\ op_instance r <> id.
Proof.
  intros Hf Hb Hr Hs.
  apply Tracker_Begin_Ok in Hb as (Hbusy & -> & Hi & Hrec).
  assert (T' <> token_of (issued t)) as Hne.
  { intros ->. rewrite (fresh_next_token t Hf) in Hr. done. }
  assert (op_instance r <> id) as Hid by by eapply busy_false.
  split; [done|]. split; [|done].
  rewrite Hrec, lookup_insert_ne by done.
  by apply map_lookup_filter_Some.
Qed.

Lemma Tracker_Begin_new (id : UUID) (k : op_kind) (t t' : tracker)
    (T : string) :
  Tracker_Begin id k t = Ok (T, t') ->
  exists r, records t' !! T = Some r /\ op_status r = InProgress
            /\ op_instance r = id.
Proof.
  intros Hb. apply Tracker_Begin_Ok in Hb as (_ & _ & _ & ->).
  rewrite lookup_insert_eq. by eexists.
Qed.

Lemma Tracker_Complete_other (T T' : string) (o : outcome) (t t' : tracker) :
  Tracker_Complete T o t = Ok t' -> T' <> T ->
  records t' !! T' = records t !! T'.
Proof.
  intros Hc Hne. apply Tracker_Complete_Ok in Hc as (_ & r & _ & H).
  simpl in H. destruct H as [[_ ->]|(_ & _ & ->)]; [|done].
  by rewrite lookup_insert_ne.
Qed.

Lemma tracker_step_one_active (t t' : tracker) :
  tracker_fresh t -> one_active t -> tracker_step t t' -> one_active t'.
Proof.
  intros Hf H1 Hstep T T' r r' Hr Hr' Hs Hs' Hi.
  assert (forall T r,
             records t' !! T = Some r -> op_status r = InProgress ->
             records t !! T = Some r \/
             records t !! T = None /\ T = token_of (issued t)
             /\ busy (op_instance r) t = false) as Hold.
  { clear T T' r r' Hr Hr' Hs Hs' Hi. intros T r Hr Hs.
    destruct (tracker_step_record t t' T Hf Hstep) as [_ H].
    destruct (records t !! T) as [r0|] eqn:Hr0.
    - left. destruct (op_status r0) eqn:Hs0.
      + destruct H as [E|[o E]]; [congruence|].
        rewrite Hr in E. injection E as ->. simpl in Hs.
        by apply outcome_state_terminal in Hs.
      + destruct H as [E|E]; [|congruence].
        rewrite Hr in E. injection E as ->. congruence.
      + destruct H as [E|E]; [|congruence].
        rewrite Hr in E. injection E as ->. congruence.
    - right. destruct H as [E|(-> & _ & r1 & E & _ & _ & Hb)]; [congruence|].
      rewrite Hr in E. injection E as <-. done. }
  destruct (Hold _ _ Hr Hs) as [Ho|(Hn & -> & Hb)],
      (Hold _ _ Hr' Hs') as [Ho'|(Hn' & -> & Hb')]; try done.
  - by eapply H1.
  - exfalso. eapply (busy_false _ _ _ _ Hb' Ho Hs). done.
  - exfalso. eapply (busy_false _ _ _ _ Hb Ho' Hs'). done.
Qed.

(** ** The Instance Registry *)

Lemma rchange_other (id id' : UUID) (g g' : registry) :
  rchange id g g' -> id' <> id -> instances g' !! id' = instances g !! id'.
Proof.
  intros [] Hne; simpl; try done;
    by rewrite ?lookup_insert_ne, ?lookup_delete_ne.
Qed.

Lemma rchange_reg_ok (id : UUID) (g g' : registry) :
  reg_ok g -> rchange id g g' -> reg_ok g'.
Proof.
  intros [H1 H2] Hc.
  destruct Hc as [r Hn He|r r' Hr Hb Hs|r Hr He|r bid br Hr Hs Ho
                 |r bid Hr|bid br br' Hbr Hb]; split.
  - intros b x Hx. simpl in *. destruct (H1 _ _ Hx) as (r0 & Hr0 & Hin).
    exists r0. split; [|done]. rewrite lookup_insert_ne; [done|congruence].
  - intros i x Hx Hst. simpl in *.
    destruct (decide (id = i)) as [<-|Hne].
    + rewrite lookup_insert_eq in Hx. by injection Hx as <-.
    + rewrite lookup_insert_ne in Hx by done. by eapply H2.
  - intros b x Hx. simpl in *. destruct (H1 _ _ Hx) as (r0 & Hr0 & Hin).
    destruct (decide (id = bi_ServiceID (binding x))) as [E|Hne].
    + exists r'. rewrite <- E, lookup_insert_eq. split; [done|].
      rewrite Hb. rewrite <- E in Hr0. congruence.
    + exists r0. by rewrite lookup_insert_ne.
  - intros i x Hx Hst. simpl in *.
    destruct (decide (id = i)) as [<-|Hne].
    + rewrite lookup_insert_eq in Hx. injection Hx as <-.
      rewrite Hb. by apply Hs.
    + rewrite lookup_insert_ne in Hx by done. by eapply H2.
  - intros b x Hx. simpl in *. destruct (H1 _ _ Hx) as (r0 & Hr0 & Hin).
    destruct (decide (id = bi_ServiceID (binding x))) as [E|Hne].
    + rewrite <- E in Hr0. rewrite Hr in Hr0. injection Hr0 as <-.
      rewrite He in Hin. rewrite lookup_empty in Hin. by destruct Hin.
    + exists r0. by rewrite lookup_delete_ne.
  - intros i x Hx Hst. simpl in *.
    destruct (decide (id = i)) as [<-|Hne].
    + by rewrite lookup_delete_eq in Hx.
    + rewrite lookup_delete_ne in Hx by done. by eapply H2.
  - intros b x Hx. simpl in *.
    destruct (decide (bid = b)) as [<-|Hne].
    + rewrite lookup_insert_eq in Hx. injection Hx as <-.
      exists (add_binding_id bid r). rewrite Ho, lookup_insert_eq.
      split; [done|]. simpl. by rewrite lookup_insert_eq.
    + rewrite lookup_insert_ne in Hx by done.
      destruct (H1 _ _ Hx) as (r0 & Hr0 & Hin).
      destruct (decide (id = bi_ServiceID (binding x))) as [E|Hne'].
      * exists (add_binding_id bid r). rewrite <- E, lookup_insert_eq.
        split; [done|]. simpl. rewrite lookup_insert_ne by done.
        rewrite <- E in Hr0. congruence.
      * exists r0. by rewrite lookup_insert_ne.
  - intros i x Hx Hst. simpl in *.
    destruct (decide (id = i)) as [<-|Hne].
    + rewrite lookup_insert_eq in Hx. injection Hx as <-. simpl in Hst.
      rewrite Hs in Hst. by destruct Hst.
    + rewrite lookup_insert_ne in Hx by done. by eapply H2.
  - intros b x Hx. simpl in *.
    destruct (decide (bid = b)) as [<-|Hne];
      [by rewrite lookup_delete_eq in Hx|].
    rewrite lookup_delete_ne in Hx by done.
    destruct (H1 _ _ Hx) as (r0 & Hr0 & Hin).
    destruct (decide (id = bi_ServiceID (binding x))) as [E|Hne'].
    + exists (remove_binding_id bid r). rewrite <- E, lookup_insert_eq.
      split; [done|]. simpl. rewrite lookup_delete_ne by done.
      rewrite <- E in Hr0. congruence.
    + exists r0. by rewrite lookup_insert_ne.
  - intros i x Hx Hst. simpl in *.
    destruct (decide (id = i)) as [<-|Hne].
    + rewrite lookup_insert_eq in Hx. injection Hx as <-. simpl in *.
      rewrite (H2 _ _ Hr Hst). apply delete_empty.
    + rewrite lookup_insert_ne in Hx by done. by eapply H2.
  - intros b x Hx. simpl in *.
    destruct (decide (bid = b)) as [<-|Hne].
    + rewrite lookup_insert_eq in Hx. injection Hx as <-.
      rewrite Hb. by apply H1.
    + rewrite lookup_insert_ne in Hx by done. by apply H1.
  - intros i x Hx Hst. simpl in *. by eapply H2.
Qed.

(** ** The Broker Orchestrator *)

Ltac effect_none := by apply eff_none.

Lemma Provision_effect (A : Adapter) (id : UUID) (req : ProvisionRequest)
    (ai : bool) (s : broker) :
  effect id s (snd (Provision A id req ai s)).
Proof.
  unfold Provision, Registry_Get.
  destruct (instances (reg s) !! id) as [r|] eqn:Hid.
  - destruct (state_of r); try effect_none;
      destruct (decide _); effect_none.
  - destruct ai.
    + destruct (Tracker_Begin id KProvision (trk s)) as [[T t]|] eqn:Hb;
        [|effect_none].
      unfold commit, Registry_Put. simpl. rewrite Hid. simpl.
      eapply (eff_async _ _ _ KProvision T (TaskProvision id)); simpl;
        try done.
      * by apply rc_put.
      * intros r. simpl. rewrite lookup_insert_eq. by intros [= <-].
    + destruct (busy id (trk s)) eqn:Hbusy; [effect_none|].
      destruct (Adapter_Create _ _ _); [|effect_none].
      unfold commit, Registry_Put. simpl. rewrite Hid. simpl.
      apply eff_sync; simpl; try done. by apply rc_put.
Qed.

Lemma Deprovision_effect (A : Adapter) (inst : ServiceInstance)
    (planID : string) (ai : bool) (s : broker) :
  effect (si_ID inst) s (snd (Deprovision A inst planID ai s)).
Proof.
  unfold Deprovision, Registry_Get.
  destruct (instances (reg s) !! si_ID inst) as [r|] eqn:Hid;
    [|effect_none].
  destruct (decide _) as [He|]; [|effect_none].
  destruct (state_of r) eqn:Hst; try effect_none.
  destruct ai.
  - destruct (Tracker_Begin _ KDeprovision (trk s)) as [[T t]|] eqn:Hb;
      [|effect_none].
    unfold commit, Registry_Update. simpl. rewrite Hid. simpl.
    eapply (eff_async _ _ _ KDeprovision T (TaskDeprovision _)); simpl;
      try done.
    + by apply (rc_update _ _ r).
    + intros r'. simpl. rewrite lookup_insert_eq. by intros [= <-].
  - destruct (busy _ (trk s)) eqn:Hbusy; [effect_none|].
    destruct (Adapter_Destroy _ _ _); [|effect_none].
    unfold commit, Registry_Delete. simpl. rewrite Hid. simpl.
    apply eff_sync; simpl; try done. by apply (rc_delete _ _ r).
Qed.

Lemma Bind_effect (A : Adapter) (inst : ServiceInstance) (bid : UUID)
    (req : BindRequest) (ai : bool) (s : broker) :
  effect (si_ID inst) s (snd (Bind A inst bid req ai s)).
Proof.
  unfold Bind, Registry_Get, Registry_GetBinding.
  destruct (instances (reg s) !! si_ID inst) as [r|] eqn:Hid;
    [|effect_none].
  destruct (state_of r) eqn:Hst; try effect_none.
  destruct (bindings (reg s) !! bid) as [br|] eqn:Hbid.
  { destruct (decide _); effect_none. }
  destruct ai.
  - destruct (Tracker_Begin _ KBind (trk s)) as [[T t]|] eqn:Hb;
      [|effect_none].
    unfold commit, both, Registry_PutBinding, Registry_Update. simpl.
    rewrite Hbid. simpl. rewrite Hid. simpl.
    eapply (eff_async _ _ _ KBind T (TaskBind _ bid)); simpl; try done.
    by apply (rc_bind _ _ r).
  - destruct (busy _ (trk s)) eqn:Hbusy; [effect_none|].
    destruct (Adapter_Bind _ _ _ _); [|effect_none].
    unfold commit, both, Registry_PutBinding, Registry_Update. simpl.
    rewrite Hbid. simpl. rewrite Hid. simpl.
    apply eff_sync; simpl; try done. by apply (rc_bind _ _ r).
Qed.

Lemma Unbind_effect (A : Adapter) (inst : ServiceInstance) (b : BindInstance)
    (planID : string) (ai : bool) (s : broker) :
  effect (si_ID inst) s (snd (Unbind A inst b planID ai s)).
Proof.
  unfold Unbind, Registry_Get, Registry_GetBinding.
  destruct (instances (reg s) !! si_ID inst) as [r|] eqn:Hid;
    [|effect_none].
  destruct (bindings (reg s) !! bi_ID b) as [br|] eqn:Hbid; [|effect_none].
  destruct (decide _) as [Ho|]; [|effect_none].
  destruct ai.
  - destruct (Tracker_Begin _ KUnbind (trk s)) as [[T t]|] eqn:Hb;
      [|effect_none].
    unfold commit, Registry_UpdateBinding. simpl. rewrite Hbid. simpl.
    eapply (eff_async _ _ _ KUnbind T (TaskUnbind (si_ID inst) (bi_ID b)));
      simpl; try done.
    by apply (rc_binding _ _ _ br).
  - destruct (busy _ (trk s)) eqn:Hbusy; [effect_none|].
    destruct (Adapter_Unbind _ _ _ _); [|effect_none].
    unfold commit, both, Registry_DeleteBinding, Registry_Update. simpl.
    rewrite Hbid. simpl. rewrite Hid. simpl.
    apply eff_sync; simpl; try done. by apply (rc_unbind _ _ r).
Qed.

Lemma Update_effect (A : Adapter) (C : CatalogModel) (id : UUID)
    (req : UpdateRequest) (ai : bool) (s : broker) :
  effect id s (snd (Update A C id req ai s)).
Proof.
  unfold Update, Registry_Get.
  destruct (instances (reg s) !! id) as [r|] eqn:Hid; [|effect_none].
  destruct (state_of r) eqn:Hst; try effect_none.
  destruct (validate_update C req (instance r)); [effect_none|].
  destruct ai.
  - destruct (Tracker_Begin _ KUpdate (trk s)) as [[T t]|] eqn:Hb;
      [|effect_none].
    unfold commit, Registry_Update. simpl. rewrite Hid. simpl.
    eapply (eff_async _ _ _ KUpdate T (TaskUpdate id req)); simpl; try done.
    apply (rc_update _ _ r); [done|done|]. simpl. by intros [|].
  - destruct (busy _ (trk s)) eqn:Hbusy; [effect_none|].
    destruct (Adapter_Reconfigure _ _ _ _); [|effect_none].
    unfold commit, Registry_Update. simpl. rewrite Hid. simpl.
    apply eff_sync; simpl; try done.
    apply (rc_update _ _ r); [done|done|]. simpl. by intros [|].
Qed.

Lemma worker_leaf (T : string) (o : outcome)
    (c : registry -> result registry) (call : adapter_call) (s : broker) :
  let s' := finish T o (worker_change c (log_call call s)) in
  queue s' = delete T (queue s) /\
  (trk s' = trk s \/ exists o, Tracker_Complete T o (trk s) = Ok (trk s')) /\
  (reg s' = reg s \/ c (reg s) = Ok (reg s')).
Proof.
  unfold finish, worker_change. simpl.
  destruct (c (reg s)) as [g|] eqn:Hc; simpl;
    destruct (Tracker_Complete T o (trk s)) as [t|] eqn:Ht; simpl;
    eauto 6.
Qed.

Lemma worker_leaf_failed (T : string) (o : outcome) (s : broker) :
  let s' := finish T o s in
  queue s' = delete T (queue s) /\
  (trk s' = trk s \/ exists o, Tracker_Complete T o (trk s) = Ok (trk s')) /\
  reg s' = reg s.
Proof.
  unfold finish.
  destruct (Tracker_Complete T o (trk s)) as [t|] eqn:Ht; simpl; eauto 6.
Qed.

Lemma Registry_Update_rchange (id : UUID)
    (f : InstanceRecord -> InstanceRecord) (g g' : registry) :
  Registry_Update id f g = Ok g' ->
  (forall r, si_BindingIDs (instance (f r)) = si_BindingIDs (instance r)) ->
  (forall r, state_of (f r) <> PROVISIONING
             /\ state_of (f r) <> DEPROVISIONING) ->
  rchange id g g'.
Proof.
  unfold Registry_Update. destruct (instances g !! id) as [r|] eqn:Hr; [|done].
  intros [= <-] Hb Hs. apply (rc_update _ _ r); [done|done|].
  destruct (Hs r). by intros [|].
Qed.

Lemma Registry_Delete_rchange (id : UUID) (g g' : registry) :
  Registry_Delete id g = Ok g' ->
  (forall r, instances g !! id = Some r -> si_BindingIDs (instance r) = ∅) ->
  rchange id g g'.
Proof.
  unfold Registry_Delete. destruct (instances g !! id) as [r|] eqn:Hr; [|done].
  intros [= <-] He. apply (rc_delete _ _ r); [done|]. by apply He.
Qed.

Lemma unbind_rchange (id bid : UUID) (g g' : registry) :
  both (Registry_DeleteBinding bid)
    (Registry_Update id (remove_binding_id bid)) g = Ok g' ->
  rchange id g g'.
Proof.
  unfold both, Registry_DeleteBinding, Registry_Update.
  destruct (bindings g !! bid) as [br|]; [|done]. simpl.
  destruct (instances g !! id) as [r|] eqn:Hr; [|done].
  intros [= <-]. by apply (rc_unbind _ _ r).
Qed.

Lemma Registry_UpdateBinding_rchange (id bid : UUID)
    (f : BindingRecord -> BindingRecord) (g g' : registry) :
  Registry_UpdateBinding bid f g = Ok g' ->
  (forall br, binding (f br) = binding br) ->
  rchange id g g'.
Proof.
  unfold Registry_UpdateBinding.
  destruct (bindings g !! bid) as [br|] eqn:Hbr; [|done].
  intros [= <-] Hb. by apply (rc_binding _ _ _ br).
Qed.

(** What the worker of a dispatched task does to the broker. *)
Lemma run_task_effect (A : Adapter) (T : string) (w : task) (s : broker) :
  queue s !! T = Some w -> reg_ok (reg s) -> task_state_ok w (reg s) ->
  let s' := run_task A T s in
  queue s' = delete T (queue s) /\
  (trk s' = trk s \/ exists o, Tracker_Complete T o (trk s) = Ok (trk s')) /\
  (reg s' = reg s \/ rchange (task_instance w) (reg s) (reg s')).
Proof.
  intros Hq [_ Hu] Hw. unfold run_task. rewrite Hq.
  unfold Registry_Get, Registry_GetBinding.
  destruct (instances (reg s) !! task_instance w) as [r|] eqn:Hr.
  2:{ destruct (worker_leaf_failed T (Failure "instance not found") s)
        as (? & ? & ?). eauto. }
  assert (forall c, c = Registry_Delete (task_instance w) ->
            forall g', c (reg s) = Ok g' ->
            state_of r = PROVISIONING \/ state_of r = DEPROVISIONING ->
            rchange (task_instance w) (reg s) g') as Hdel.
  { intros c -> g' Hc Hst. apply Registry_Delete_rchange; [done|].
    intros r' Hr'. rewrite Hr in Hr'. injection Hr' as <-.
    by eapply Hu. }
  specialize (Hw _ Hr).
  destruct w as [id|id|id bid|id bid|id req]; simpl in *.
  - destruct (Adapter_Create _ _ _);
      match goal with
      | |- context [finish T ?o (worker_change ?c (log_call ?k s))] =>
          destruct (worker_leaf T o c k s) as (Hq' & Ht' & [Hg'|Hg'])
      end; split; try done; split; try done; try (by left); right.
    + by eapply Registry_Update_rchange.
    + eapply Hdel; eauto.
  - destruct (Adapter_Destroy _ _ _);
      match goal with
      | |- context [finish T ?o (worker_change ?c (log_call ?k s))] =>
          destruct (worker_leaf T o c k s) as (Hq' & Ht' & [Hg'|Hg'])
      end; split; try done; split; try done; try (by left); right.
    + eapply Hdel; eauto.
    + by eapply Registry_Update_rchange.
  - destruct (bindings (reg s) !! bid) as [br|] eqn:Hbr.
    2:{ destruct (worker_leaf_failed T (Failure "binding not found") s)
          as (? & ? & ?). eauto. }
    destruct (Adapter_Bind _ _ _ _);
      match goal with
      | |- context [finish T ?o (worker_change ?c (log_call ?k s))] =>
          destruct (worker_leaf T o c k s) as (Hq' & Ht' & [Hg'|Hg'])
      end; split; try done; split; try done; try (by left); right.
    + by eapply Registry_UpdateBinding_rchange.
    + by eapply unbind_rchange.
  - destruct (bindings (reg s) !! bid) as [br|] eqn:Hbr.
    2:{ destruct (worker_leaf_failed T (Failure "binding not found") s)
          as (? & ? & ?). eauto. }
    destruct (Adapter_Unbind _ _ _ _);
      match goal with
      | |- context [finish T ?o (worker_change ?c (log_call ?k s))] =>
          destruct (worker_leaf T o c k s) as (Hq' & Ht' & [Hg'|Hg'])
      end; split; try done; split; try done; try (by left); right.
    + by eapply unbind_rchange.
    + by eapply Registry_UpdateBinding_rchange.
  - destruct (Adapter_Reconfigure _ _ _ _);
      match goal with
      | |- context [finish T ?o (worker_change ?c (log_call ?k s))] =>
          destruct (worker_leaf T o c k s) as (Hq' & Ht' & [Hg'|Hg'])
      end; split; try done; split; try done; try (by left); right.
    + by eapply Registry_Update_rchange.
    + by eapply Registry_Update_rchange.
Qed.

Lemma invariant_initial : invariant initial.
Proof.
  repeat split; intros *; simpl; by rewrite ?lookup_empty.
Qed.

Lemma task_state_ok_frame (w : task) (g g' : registry) :
  task_state_ok w g ->
  instances g' !! task_instance w = instances g !! task_instance w ->
  task_state_ok w g'.
Proof. intros H E r. rewrite E. apply H. Qed.

Lemma invariant_effect (id : UUID) (s s' : broker) :
  invariant s -> effect id s s' -> invariant s'.
Proof.
  intros (Hreg & Hf & H1 & Htr & Hst) Heff.
  destruct Heff as [Eg Et Eq|Hbusy Hc Et Eq|k T w Hb Hw Hc Hok Eq].
  - unfold invariant, tasks_tracked, tasks_in_state.
    by rewrite Eg, Et, Eq.
  - unfold invariant, tasks_tracked, tasks_in_state. rewrite Et, Eq.
    split; [by eapply rchange_reg_ok|]. repeat (split; [done|]).
    intros T w Hq. eapply task_state_ok_frame; [by eapply Hst|].
    eapply rchange_other; [done|].
    destruct (Htr _ _ Hq) as (r & Hr & Hs & <-). by eapply busy_false.
  - assert (tracker_step (trk s) (trk s')) as Hstep by by eapply ts_begin.
    split; [by eapply rchange_reg_ok|].
    split; [by eapply tracker_step_fresh|].
    split; [by eapply tracker_step_one_active|].
    split.
    + intros T' w' Hq. rewrite Eq in Hq.
      destruct (decide (T = T')) as [<-|Hne].
      * rewrite lookup_insert_eq in Hq. injection Hq as <-.
        rewrite Hw. by eapply Tracker_Begin_new.
      * rewrite lookup_insert_ne in Hq by done.
        destruct (Htr _ _ Hq) as (r & Hr & Hs & Hi).
        destruct (Tracker_Begin_keeps _ _ _ _ _ _ _ Hf Hb Hr Hs)
          as (_ & Hr' & _).
        by exists r.
    + intros T' w' Hq. rewrite Eq in Hq.
      destruct (decide (T = T')) as [<-|Hne].
      * rewrite lookup_insert_eq in Hq. by injection Hq as <-.
      * rewrite lookup_insert_ne in Hq by done.
        eapply task_state_ok_frame; [by eapply Hst|].
        eapply rchange_other; [done|].
        destruct (Htr _ _ Hq) as (r & Hr & Hs & <-).
        by destruct (Tracker_Begin_keeps _ _ _ _ _ _ _ Hf Hb Hr Hs)
          as (_ & _ & ?).
Qed.

Lemma invariant_run_task (A : Adapter) (T : string) (s : broker) :
  invariant s -> invariant (run_task A T s).
Proof.
  intros Hinv. destruct (queue s !! T) as [w|] eqn:Hq.
  2:{ unfold run_task. by rewrite Hq. }
  destruct Hinv as (Hreg & Hf & H1 & Htr & Hst).
  destruct (run_task_effect A T w s Hq Hreg (Hst _ _ Hq))
    as (Eq & Ht & Hg).
  set (s' := run_task A T s) in *.
  assert (tracker_step (trk s) (trk s')) as Hstep.
  { destruct Ht as [->|[o Ho]]; [apply ts_same|by eapply ts_complete]. }
  assert (forall T', T' <> T -> records (trk s') !! T' = records (trk s) !! T')
    as Hother.
  { intros T' Hne. destruct Ht as [->|[o Ho]]; [done|].
    by eapply Tracker_Complete_other. }
  assert (forall T' w', queue s' !! T' = Some w' ->
            T' <> T /\ queue s !! T' = Some w'
            /\ task_instance w' <> task_instance w) as Hrest.
  { intros T' w' Hq'. rewrite Eq in Hq'.
    apply lookup_delete_Some in Hq' as [Hne Hq'].
    split; [done|]. split; [done|].
    destruct (Htr _ _ Hq) as (r & Hr & Hs & Hi),
        (Htr _ _ Hq') as (r' & Hr' & Hs' & Hi').
    intros E. apply Hne. symmetry. eapply H1; eauto. congruence. }
  split; [destruct Hg as [->|Hg]; [done|by eapply rchange_reg_ok]|].
  split; [by eapply tracker_step_fresh|].
  split; [by eapply tracker_step_one_active|].
  split.
  - intros T' w' Hq'. destruct (Hrest _ _ Hq') as (Hne & Hq0 & _).
    rewrite Hother by done. by eapply Htr.
  - intros T' w' Hq'. destruct (Hrest _ _ Hq') as (Hne & Hq0 & Hi).
    eapply task_state_ok_frame; [by eapply Hst|].
    destruct Hg as [->|Hg]; [done|]. by eapply rchange_other.
Qed.

Lemma invariant_collect (T : string) (s : broker) :
  invariant s -> invariant (collect T s).
Proof.
  intros (Hreg & Hf & H1 & Htr & Hst).
  assert (tracker_step (trk s) (trk (collect T s))) as Hstep
      by apply ts_collect.
  split; [done|].
  split; [by eapply tracker_step_fresh|].
  split; [by eapply tracker_step_one_active|].
  split; [|done].
  intros T' w' Hq'. simpl in *.
  destruct (Htr _ _ Hq') as (r & Hr & Hs & Hi).
  destruct (Tracker_Collect_lookup T T' (trk s))
    as [_ [E|(_ & r' & Hr' & Hs')]].
  - exists r. by rewrite E.
  - congruence.
Qed.

Lemma invariant_apply_event (A : Adapter) (C : CatalogModel) (s : broker)
    (e : event) :
  invariant s -> invariant (apply_event A C s e).
Proof.
  intros Hinv. destruct e; simpl; try done.
  - eapply invariant_effect; [done|apply Provision_effect].
  - eapply invariant_effect; [done|apply Deprovision_effect].
  - eapply invariant_effect; [done|apply Bind_effect].
  - eapply invariant_effect; [done|apply Unbind_effect].
  - eapply invariant_effect; [done|apply Update_effect].
  - by apply invariant_run_task.
  - by apply invariant_collect.
Qed.

Lemma invariant_run (A : Adapter) (C : CatalogModel) (es : list event)
    (s : broker) :
  invariant s -> invariant (run A C es s).
Proof.
  revert s. induction es as [|e es IH]; intros s Hinv; [done|].
  simpl. apply IH. by apply invariant_apply_event.
Qed.

Lemma apply_event_tracker_step (A : Adapter) (C : CatalogModel) (s : broker)
    (e : event) :
  invariant s -> tracker_step (trk s) (trk (apply_event A C s e)).
Proof.
  intros Hinv.
  assert (forall id s', effect id s s' -> tracker_step (trk s) (trk s'))
    as Heff.
  { intros id s' [_ -> _|_ _ -> _|k T w Hb _ _ _ _];
      [apply ts_same|apply ts_same|by eapply ts_begin]. }
  destruct e; simpl; try apply ts_same.
  - eapply Heff, Provision_effect.
  - eapply Heff, Deprovision_effect.
  - eapply Heff, Bind_effect.
  - eapply Heff, Unbind_effect.
  - eapply Heff, Update_effect.
  - destruct (queue s !! token) as [w|] eqn:Hq.
    + destruct Hinv as (Hreg & _ & _ & _ & Hst).
      destruct (run_task_effect A token w s Hq Hreg (Hst _ _ Hq))
        as (_ & [->|[o Ho]] & _); [apply ts_same|by eapply ts_complete].
    + unfold run_task. rewrite Hq. apply ts_same.
  - apply ts_collect.
Qed.

(** Over a run, a token that was handed out and has lost its record stays
    without one. *)
Lemma run_dropped (A : Adapter) (C : CatalogModel) (es : list event)
    (s : broker) (T : string) :
  invariant s -> issued_token (trk s) T -> records (trk s) !! T = None ->
  records (trk (run A C es s)) !! T = None.
Proof.
  revert s. induction es as [|e es IH]; intros s Hinv Hi Hr; [done|].
  simpl. pose proof (apply_event_tracker_step A C s e Hinv) as Hstep.
  destruct Hinv as (Hreg & Hf & Hrest). apply IH.
  - apply invariant_apply_event. by split.
  - by eapply tracker_step_issued.
  - by eapply tracker_step_dropped.
Qed.

(** Over a run, a completed record stays as it is until it is dropped. *)
Lemma run_settled (A : Adapter) (C : CatalogModel) (es : list event)
    (s : broker) (T : string) (r : OperationRecord) :
  invariant s -> records (trk s) !! T = Some r -> op_status r <> InProgress ->
  records (trk (run A C es s)) !! T = Some r
  \/ records (trk (run A C es s)) !! T = None.
Proof.
  revert s. induction es as [|e es IH]; intros s Hinv Hr Hs; [by left|].
  simpl. pose proof (apply_event_tracker_step A C s e Hinv) as Hstep.
  pose proof (invariant_apply_event A C s e Hinv) as Hinv'.
  destruct Hinv as (Hreg & Hf & Hrest).
  destruct (tracker_step_settled _ _ _ _ Hf Hstep Hr Hs) as [E|E].
  - by apply IH.
  - right. apply run_dropped; [done| |done].
    eapply tracker_step_issued; [done|done|]. by eapply Hf.
Qed.

Lemma accept_dispatched (T : string) (id : UUID) (k : op_kind) (w : task)
    (t0 t : tracker) (q : gmap string task) :
  Tracker_Begin id k t0 = Ok (T, t) ->
  exists r, <[T := w]> q !! T = Some w /\ records t !! T = Some r
            /\ op_status r = InProgress.
Proof.
  intros Hb. destruct (Tracker_Begin_new _ _ _ _ _ Hb) as (r & Hr & Hs & _).
  exists r. by rewrite lookup_insert_eq.
Qed.

Lemma accepted_token_dispatched (A : Adapter) (C : CatalogModel) (s : broker)
    (e : event) (T : string) :
  accepted_token A C s e = Some T ->
  exists w r,
    queue (apply_event A C s e) !! T = Some w
    /\ records (trk (apply_event A C s e)) !! T = Some r
    /\ op_status r = InProgress.
Proof.
  destruct e as [|id req ai|inst plan ai|inst b req ai|inst b plan ai
                |id req ai| | | | |]; simpl; try done.
  - unfold Provision, Registry_Get.
    destruct (instances (reg s) !! id) as [r|] eqn:Hid.
    { destruct (state_of r); try done; destruct (decide _); done. }
    destruct ai.
    + destruct (Tracker_Begin id KProvision (trk s)) as [[T' t]|] eqn:Hb;
        [|done].
      unfold commit, Registry_Put. simpl. rewrite Hid. simpl.
      unfold nonempty. destruct (decide _); [done|]. intros [= <-].
      eexists. eapply accept_dispatched. exact Hb.
    + destruct (busy id (trk s)); [done|].
      destruct (Adapter_Create _ _ _); [|done].
      unfold commit, Registry_Put. simpl. by rewrite Hid.
  - unfold Deprovision, Registry_Get.
    destruct (instances (reg s) !! si_ID inst) as [r|] eqn:Hid; [|done].
    destruct (decide _); [|done]. destruct (state_of r); try done.
    destruct ai.
    + destruct (Tracker_Begin _ KDeprovision (trk s)) as [[T' t]|] eqn:Hb;
        [|done].
      unfold commit, Registry_Update. simpl. rewrite Hid. simpl.
      unfold nonempty. destruct (decide _); [done|]. intros [= <-].
      eexists. eapply accept_dispatched. exact Hb.
    + destruct (busy _ (trk s)); [done|].
      destruct (Adapter_Destroy _ _ _); [|done].
      unfold commit, Registry_Delete. simpl. by rewrite Hid.
  - unfold Bind, Registry_Get, Registry_GetBinding.
    destruct (bindings (reg s) !! b) as [br|] eqn:Hbid; [done|].
    destruct (instances (reg s) !! si_ID inst) as [r|] eqn:Hid; [|done].
    destruct (state_of r); try done.
    destruct ai.
    + destruct (Tracker_Begin _ KBind (trk s)) as [[T' t]|] eqn:Hb; [|done].
      unfold commit, both, Registry_PutBinding, Registry_Update. simpl.
      rewrite Hbid. simpl. rewrite Hid. simpl.
      unfold nonempty. destruct (decide _); [done|]. intros [= <-].
      eexists. eapply accept_dispatched. exact Hb.
    + destruct (busy _ (trk s)); [done|].
      destruct (Adapter_Bind _ _ _ _); [|done].
      unfold commit, both, Registry_PutBinding, Registry_Update. simpl.
      rewrite Hbid. simpl. by rewrite Hid.
  - unfold Unbind, Registry_Get, Registry_GetBinding.
    destruct (instances (reg s) !! si_ID inst) as [r|] eqn:Hid; [|done].
    destruct (bindings (reg s) !! bi_ID b) as [br|] eqn:Hbid; [|done].
    destruct (decide _); [|done].
    destruct ai.
    + destruct (Tracker_Begin _ KUnbind (trk s)) as [[T' t]|] eqn:Hb; [|done].
      unfold commit, Registry_UpdateBinding. simpl. rewrite Hbid. simpl.
      unfold nonempty. destruct (decide _); [done|]. intros [= <-].
      eexists. eapply accept_dispatched. exact Hb.
    + destruct (busy _ (trk s)); [done|].
      destruct (Adapter_Unbind _ _ _ _); [|done].
      unfold commit, both, Registry_DeleteBinding, Registry_Update. simpl.
      rewrite Hbid. simpl. by rewrite Hid.
  - unfold Update, Registry_Get.
    destruct (instances (reg s) !! id) as [r|] eqn:Hid; [|done].
    destruct (state_of r); try done.
    destruct (validate_update C req (instance r)); [done|].
    destruct ai.
    + destruct (Tracker_Begin _ KUpdate (trk s)) as [[T' t]|] eqn:Hb; [|done].
      unfold commit, Registry_Update. simpl. rewrite Hid. simpl.
      unfold nonempty. destruct (decide _); [done|]. intros [= <-].
      eexists. eapply accept_dispatched. exact Hb.
    + destruct (busy _ (trk s)); [done|].
      destruct (Adapter_Reconfigure _ _ _ _); [|done].
      unfold commit, Registry_Update. simpl. by rewrite Hid.
Qed.

Lemma finish_in_progress (T : string) (o : outcome) (s : broker)
    (r : OperationRecord) :
  records (trk s) !! T = Some r -> op_status r = InProgress ->
  records (trk (finish T o s)) !! T
  = Some {| op_instance := op_instance r; op_what := op_what r;
            op_status := outcome_state o;
            op_description := outcome_description o |}.
Proof.
  intros Hr Hs. unfold finish, Tracker_Complete. rewrite Hr, Hs. simpl.
  by rewrite lookup_insert_eq.
Qed.

Lemma trk_worker_change (c : registry -> result registry) (s : broker) :
  trk (worker_change c s) = trk s.
Proof. unfold worker_change. by destruct (c (reg s)). Qed.

(** The worker of a dispatched task leaves its operation record completed. *)
Lemma run_task_completes (A : Adapter) (T : string) (w : task) (s : broker)
    (r : OperationRecord) :
  queue s !! T = Some w -> records (trk s) !! T = Some r ->
  op_status r = InProgress ->
  exists o,
    records (trk (run_task A T s)) !! T
    = Some {| op_instance := op_instance r; op_what := op_what r;
              op_status := outcome_state o;
              op_description := outcome_description o |}.
Proof.
  intros Hq Hr Hs. unfold run_task. rewrite Hq.
  repeat case_match; eexists; apply finish_in_progress;
    rewrite ?trk_worker_change; done.
Qed.

Lemma nonempty_token (n : nat) : nonempty (token_of n) = Some (token_of n).
Proof.
  unfold nonempty. destruct (decide _) as [E|]; [|done].
  by apply token_of_not_empty in E.
Qed.

(** What a call does to the tracker: nothing, and then it answers with no
    new operation token, or one [Begin] for its instance, whose token it
    answers with. *)
Lemma call_tracker (A : Adapter) (C : CatalogModel) (s : broker) (e : event) :
  match e with
  | EvWorker _ | EvCollect _ => True
  | _ =>
      trk (apply_event A C s e) = trk s /\ accepted_token A C s e = None
      \/ exists id k T,
           event_instance e = Some id /\ accepted_token A C s e = Some T
           /\ Tracker_Begin id k (trk s) = Ok (T, trk (apply_event A C s e))
  end.
Proof.
  assert (forall id k T t,
             Tracker_Begin id k (trk s) = Ok (T, t) ->
             nonempty T = Some T) as Hne.
  { intros id k T t Hb. apply Tracker_Begin_Ok in Hb as (_ & -> & _).
    apply nonempty_token. }
  destruct e as [|id req ai|inst plan ai|inst b req ai|inst b plan ai
                |id req ai| | | | |]; simpl; try done; try (by left).
  - unfold Provision, Registry_Get.
    destruct (instances (reg s) !! id) as [r|] eqn:Hid.
    { destruct (state_of r); try (by left); destruct (decide _); by left. }
    destruct ai.
    + destruct (Tracker_Begin id KProvision (trk s)) as [[T t]|] eqn:Hb;
        [|by left].
      unfold commit, Registry_Put. simpl. rewrite Hid. simpl.
      right. exists id, KProvision, T. by rewrite (Hne _ _ _ _ Hb).
    + destruct (busy id (trk s)); [by left|].
      destruct (Adapter_Create _ _ _); [|by left].
      unfold commit, Registry_Put. simpl. rewrite Hid. by left.
  - unfold Deprovision, Registry_Get.
    destruct (instances (reg s) !! si_ID inst) as [r|] eqn:Hid; [|by left].
    destruct (decide _); [|by left]. destruct (state_of r); try (by left).
    destruct ai.
    + destruct (Tracker_Begin _ KDeprovision (trk s)) as [[T t]|] eqn:Hb;
        [|by left].
      unfold commit, Registry_Update. simpl. rewrite Hid. simpl.
      right. exists (si_ID inst), KDeprovision, T.
      by rewrite (Hne _ _ _ _ Hb).
    + destruct (busy _ (trk s)); [by left|].
      destruct (Adapter_Destroy _ _ _); [|by left].
      unfold commit, Registry_Delete. simpl. rewrite Hid. by left.
  - unfold Bind, Registry_Get, Registry_GetBinding.
    destruct (instances (reg s) !! si_ID inst) as [r|] eqn:Hid.
    2:{ left. by destruct (bindings (reg s) !! b). }
    destruct (state_of r);
      try (left; by destruct (bindings (reg s) !! b)).
    destruct (bindings (reg s) !! b) as [br|] eqn:Hbid.
    { destruct (decide _); by left. }
    destruct ai.
    + destruct (Tracker_Begin _ KBind (trk s)) as [[T t]|] eqn:Hb;
        [|by left].
      unfold commit, both, Registry_PutBinding, Registry_Update. simpl.
      rewrite Hbid. simpl. rewrite Hid. simpl.
      right. exists (si_ID inst), KBind, T. by rewrite (Hne _ _ _ _ Hb).
    + destruct (busy _ (trk s)); [by left|].
      destruct (Adapter_Bind _ _ _ _); [|by left].
      unfold commit, both, Registry_PutBinding, Registry_Update. simpl.
      rewrite Hbid. simpl. rewrite Hid. by left.
  - unfold Unbind, Registry_Get, Registry_GetBinding.
    destruct (instances (reg s) !! si_ID inst) as [r|] eqn:Hid; [|by left].
    destruct (bindings (reg s) !! bi_ID b) as [br|] eqn:Hbid; [|by left].
    destruct (decide _); [|by left].
    destruct ai.
    + destruct (Tracker_Begin _ KUnbind (trk s)) as [[T t]|] eqn:Hb;
        [|by left].
      unfold commit, Registry_UpdateBinding. simpl. rewrite Hbid. simpl.
      right. exists (si_ID inst), KUnbind, T. by rewrite (Hne _ _ _ _ Hb).
    + destruct (busy _ (trk s)); [by left|].
      destruct (Adapter_Unbind _ _ _ _); [|by left].
      unfold commit, both, Registry_DeleteBinding, Registry_Update. simpl.
      rewrite Hbid. simpl. rewrite Hid. by left.
  - unfold Update, Registry_Get.
    destruct (instances (reg s) !! id) as [r|] eqn:Hid; [|by left].
    destruct (state_of r); try (by left).
    destruct (validate_update C req (instance r)); [by left|].
    destruct ai.
    + destruct (Tracker_Begin _ KUpdate (trk s)) as [[T t]|] eqn:Hb;
        [|by left].
      unfold commit, Registry_Update. simpl. rewrite Hid. simpl.
      right. exists id, KUpdate, T. by rewrite (Hne _ _ _ _ Hb).
    + destruct (busy _ (trk s)); [by left|].
      destruct (Adapter_Reconfigure _ _ _ _); [|by left].
      unfold commit, Registry_Update. simpl. rewrite Hid. by left.
Qed.

Lemma run_task_tracker (A : Adapter) (T : string) (s : broker) :
  trk (run_task A T s) = trk s
  \/ exists o, Tracker_Complete T o (trk s) = Ok (trk (run_task A T s)).
Proof.
  assert (forall o s0,
             trk s0 = trk s ->
             trk (finish T o s0) = trk s
             \/ exists o', Tracker_Complete T o' (trk s)
                           = Ok (trk (finish T o s0))) as Hfin.
  { intros o s0 E. unfold finish. rewrite E.
    destruct (Tracker_Complete T o (trk s)) as [t|] eqn:Hc; simpl;
      [right; by exists o|by left]. }
  unfold run_task. repeat case_match; try (by left);
    apply Hfin; by rewrite ?trk_worker_change.
Qed.

(** One event leaves a completed record as it is, unless it drops it. *)
Lemma apply_event_settled (A : Adapter) (C : CatalogModel) (s : broker)
    (e : event) (T : string) (r : OperationRecord) :
  invariant s -> records (trk s) !! T = Some r -> op_status r <> InProgress ->
  records (trk (apply_event A C s e)) !! T
  = if drops A C s T e then None else Some r.
Proof.
  intros (_ & Hf & _) Hr Hs. unfold drops. rewrite Hr.
  assert (forall id k T' t,
             Tracker_Begin id k (trk s) = Ok (T', t) ->
             records t !! T
             = if bool_decide (op_instance r = id) then None else Some r)
    as Hbegin.
  { intros id k T' t Hb.
    apply Tracker_Begin_Ok in Hb as (_ & -> & _ & ->).
    rewrite lookup_insert_ne.
    2:{ intros E. rewrite <- E, (fresh_next_token _ Hf) in Hr. done. }
    case_bool_decide as Hi.
    - apply map_lookup_filter_None. right. intros r' Hr'. simpl.
      rewrite Hr in Hr'. injection Hr' as <-. by intros ?.
    - by apply map_lookup_filter_Some. }
  pose proof (call_tracker A C s e) as Hcall.
  destruct e as [|id req ai|inst plan ai|inst b req ai|inst b plan ai
                |id req ai|id req|id|id|T'|T'];
    try (destruct Hcall as [[-> ->]|(i & k & T' & -> & -> & Hb)];
         [done|by eapply Hbegin]).
  - simpl. destruct (run_task_tracker A T' s) as [->|[o Ho]]; [done|].
    apply Tracker_Complete_Ok in Ho as (_ & r0 & Hr0 & Hcase).
    simpl in Hcase. destruct Hcase as [[Hs0 ->]|(_ & _ & ->)]; [|done].
    rewrite lookup_insert_ne; [done|]. intros ->. congruence.
  - simpl. unfold Tracker_Collect.
    case_bool_decide as Ht; simpl.
    + subst T'. rewrite Hr.
      rewrite bool_decide_eq_false_2 by done. simpl.
      destruct (op_status r); [done|..]; simpl; by rewrite lookup_delete_eq.
    + destruct (records (trk s) !! T') as [r'|]; [|done].
      destruct (op_status r'); simpl; by rewrite ?lookup_delete_ne.
Qed.

(** Over a run, a completed record stays as it is until an event drops it,
    and has no record from then on. *)
Lemma run_settled_exactly (A : Adapter) (C : CatalogModel) (es : list event)
    (s : broker) (T : string) (r : OperationRecord) :
  invariant s -> records (trk s) !! T = Some r -> op_status r <> InProgress ->
  records (trk (run A C es s)) !! T
  = if dropped_in A C T es s then None else Some r.
Proof.
  revert s. induction es as [|e es IH]; intros s Hinv Hr Hs; [done|].
  simpl. pose proof (apply_event_settled A C s e T r Hinv Hr Hs) as Hstep.
  pose proof (invariant_apply_event A C s e Hinv) as Hinv'.
  destruct (drops A C s T e); simpl.
  - apply run_dropped; [done| |done].
    eapply tracker_step_issued;
      [by destruct Hinv as (_ & ? & _)|by apply apply_event_tracker_step|].
    destruct Hinv as (_ & Hf & _). by eapply Hf.
  - by apply IH.
Qed.

(** C6, as stated, fails: once a new operation on the same instance has
    superseded a completed one, a poll on the old token no longer returns
    its terminal state. *)
Lemma poll_after_supersession_not_found :
  let s1 :=
    run demo_adapter demo_catalog
      [EvProvision "I2" demo_provision true; EvWorker "op-0"] initial in
  let s2 :=
    run demo_adapter demo_catalog
      [EvDeprovision (demo_instance "I2") "P1" true] s1 in
  LastOperation "I2" (poll "op-0") s1
  = Ok {| los_State := "succeeded"; los_Description := "" |} /\
  LastOperation "I2" (poll "op-0") s2 = Err (Fail NotFound).
Proof. vm_compute. by split. Qed.

(** C6, amended: the token of a call accepted asynchronously polls as
    "in progress" right after the call, and a poll on a token returns
    "in progress" while its background task is still dispatched; when the
    task completes, the poll returns "succeeded" or "failed"; a state
    returned is one of "in progress", "succeeded" and "failed"; once a poll
    has returned a terminal state, a later poll fails with NotFound exactly
    when, in between, the record was collected or a call on the instance of
    its operation was accepted asynchronously and so superseded it, and
    returns the same response otherwise; and once the token of an
    operation is not found, it stays not found.  So the state never returns
    to in-progress. *)
Theorem last_operation_polling (A : Adapter) (C : CatalogModel)
    (es es' : list event) (e : event) (id id' : UUID)
    (req : LastOperationRequest) :
  let s := run A C es initial in
  let s' := run A C es' s in
  let T := lor_Operation req in
  (accepted_token A C s e = Some T ->
   exists d,
     LastOperation id req (apply_event A C s e)
     = Ok {| los_State := LastOperationStateInProgress;
             los_Description := d |}) /\
  (is_Some (queue s !! T) ->
   exists d,
     LastOperation id req s
     = Ok {| los_State := LastOperationStateInProgress;
             los_Description := d |}) /\
  (is_Some (queue s !! T) ->
   exists resp,
     LastOperation id req (apply_event A C s (EvWorker T)) = Ok resp
     /\ los_State resp ∈ [LastOperationStateSucceeded;
                          LastOperationStateFailed]) /\
  (forall resp,
      LastOperation id req s = Ok resp ->
      los_State resp ∈ [LastOperationStateInProgress;
                        LastOperationStateSucceeded;
                        LastOperationStateFailed]) /\
  (forall resp,
      LastOperation id req s = Ok resp ->
      los_State resp <> LastOperationStateInProgress ->
      LastOperation id' req s'
      = if dropped_in A C T es' s then Err (Fail NotFound) else Ok resp) /\
  (issued_token (trk s) T ->
   LastOperation id req s = Err (Fail NotFound) ->
   LastOperation id' req s' = Err (Fail NotFound)).
Proof.
  intros s s' T. subst s' T.
  assert (invariant s) as Hinv by apply invariant_run, invariant_initial.
  split; [|split; [|split; [|split; [|split]]]].
  - intros Ha.
    destruct (accepted_token_dispatched _ _ _ _ _ Ha) as (w & r & _ & Hr & Hs).
    exists (op_description r).
    unfold LastOperation, Tracker_Status. by rewrite Hr, Hs.
  - intros [w Hq]. destruct Hinv as (_ & _ & _ & Htr & _).
    destruct (Htr _ _ Hq) as (r & Hr & Hs & _).
    exists (op_description r).
    unfold LastOperation, Tracker_Status. by rewrite Hr, Hs.
  - intros [w Hq]. destruct Hinv as (_ & _ & _ & Htr & _).
    destruct (Htr _ _ Hq) as (r & Hr & Hs & _).
    destruct (run_task_completes A _ w s r Hq Hr Hs) as [o Ho].
    eexists. unfold LastOperation, Tracker_Status. simpl. rewrite Ho.
    split; [reflexivity|]. simpl. destruct o; simpl; set_solver.
  - intros resp. unfold LastOperation, Tracker_Status.
    destruct (records (trk s) !! lor_Operation req) as [r|]; [|done].
    intros [= <-]. simpl. destruct (op_status r); simpl; set_solver.
  - intros resp. unfold LastOperation, Tracker_Status.
    destruct (records (trk s) !! lor_Operation req) as [r|] eqn:Hr; [|done].
    intros [= <-] Hs. simpl in Hs.
    assert (op_status r <> InProgress) as Hs' by (intros E; by rewrite E in Hs).
    rewrite (run_settled_exactly A C es' s _ r Hinv Hr Hs').
    by destruct (dropped_in _ _ _ _ _).
  - intros Hi. unfold LastOperation, Tracker_Status.
    destruct (records (trk s) !! lor_Operation req) as [r|] eqn:Hr; [done|].
    intros _. by rewrite (run_dropped A C es' s _ Hinv Hi Hr).
Qed.

Lemma last_operation_polling_witness :
  let s :=
    run demo_adapter demo_catalog
      [EvProvision "I2" demo_provision true; EvWorker "op-0"] initial in
  let s' :=
    run demo_adapter demo_catalog
      [EvDeprovision (demo_instance "I2") "P1" true] s in
  LastOperation "I2" (poll "op-0") s' = Err (Fail NotFound).
Proof.
  intros s s'.
  destruct (last_operation_polling demo_adapter demo_catalog
              [EvProvision "I2" demo_provision true; EvWorker "op-0"]
              [EvDeprovision (demo_instance "I2") "P1" true]
              EvCatalog "I2" "I2" (poll "op-0")) as (_ & _ & _ & _ & H & _).
  apply (H {| los_State := "succeeded"; los_Description := "" |});
    [vm_compute; reflexivity|vm_compute; discriminate].
Defined.

(** ** Provisioning twice *)

Lemma call_effect (A : Adapter) (C : CatalogModel) (s : broker) (e : event)
    (id : UUID) :
  event_instance e = Some id -> effect id s (apply_event A C s e).
Proof.
  destruct e; simpl; try done; intros [= <-].
  - apply Provision_effect.
  - apply Deprovision_effect.
  - apply Bind_effect.
  - apply Unbind_effect.
  - apply Update_effect.
Qed.

(** An event elsewhere leaves the record of the instance as it is. *)
Lemma elsewhere_instance (A : Adapter) (C : CatalogModel) (X : UUID)
    (s : broker) (e : event) :
  invariant s -> elsewhere X s e ->
  instances (reg (apply_event A C s e)) !! X = instances (reg s) !! X.
Proof.
  intros (Hreg & _ & _ & _ & Hst) He.
  destruct (event_instance e) as [id|] eqn:Hid.
  - assert (X <> id) as Hne.
    { destruct e; simpl in *; try done; intros ->; by apply He. }
    destruct (call_effect A C s e id Hid) as [-> _ _|_ Hc _ _|k T w _ _ Hc _ _];
      [done|by eapply rchange_other..].
  - destruct e; simpl in *; try done.
    destruct (queue s !! token) as [w|] eqn:Hq.
    + destruct (run_task_effect A token w s Hq Hreg (Hst _ _ Hq))
        as (_ & _ & [->|Hc]); [done|].
      eapply rchange_other; [done|]. by intros ->.
    + unfold run_task. by rewrite Hq.
Qed.

(** An event elsewhere leaves a task of the instance dispatched. *)
Lemma elsewhere_queue (A : Adapter) (C : CatalogModel) (X : UUID)
    (s : broker) (e : event) (T : string) (w : task) :
  invariant s -> elsewhere X s e ->
  queue s !! T = Some w -> task_instance w = X ->
  queue (apply_event A C s e) !! T = Some w.
Proof.
  intros (Hreg & Hf & _ & Htr & Hst) He Hq Hw.
  destruct (event_instance e) as [id|] eqn:Hid.
  - destruct (call_effect A C s e id Hid)
      as [_ _ ->|_ _ _ ->|k T' w' Hb _ _ _ ->]; [done|done|].
    destruct (Htr _ _ Hq) as (r & Hr & Hs & _).
    destruct (Tracker_Begin_keeps _ _ _ _ _ _ _ Hf Hb Hr Hs) as (Hne & _).
    by rewrite lookup_insert_ne.
  - destruct e; simpl in *; try done.
    destruct (queue s !! token) as [w'|] eqn:Hq'.
    + destruct (run_task_effect A token w' s Hq' Hreg (Hst _ _ Hq'))
        as (-> & _ & _).
      rewrite lookup_delete_ne; [done|]. intros ->.
      rewrite Hq in Hq'. injection Hq' as <-. done.
    + unfold run_task. by rewrite Hq'.
Qed.

Lemma run_elsewhere_frame (A : Adapter) (C : CatalogModel) (X : UUID)
    (es : list event) (s : broker) :
  invariant s -> run_elsewhere A C X es s ->
  invariant (run A C es s) /\
  instances (reg (run A C es s)) !! X = instances (reg s) !! X /\
  forall T w, queue s !! T = Some w -> task_instance w = X ->
              queue (run A C es s) !! T = Some w.
Proof.
  revert s. induction es as [|e es IH]; intros s Hinv Hes; [done|].
  destruct Hes as [He Hes]. simpl.
  pose proof (invariant_apply_event A C s e Hinv) as Hinv'.
  destruct (IH _ Hinv' Hes) as (Hi & Hg & Hq).
  split; [done|]. split.
  - rewrite Hg. by apply elsewhere_instance.
  - intros T w HT Hw. apply Hq; [|done].
    by apply (elsewhere_queue A C X).
Qed.

(** Provision on an instance that is provisioned with these parameters:
    the prior result, and nothing changes. *)
Lemma Provision_prior (A : Adapter) (X : UUID) (req : ProvisionRequest)
    (ai : bool) (s : broker) (r : InstanceRecord) :
  instances (reg s) !! X = Some r ->
  state_of r = PROVISIONED \/ state_of r = UPDATING ->
  si_Parameters (instance r) = Some (pr_Parameters req) ->
  Provision A X req ai s
  = (Ok {| prs_DashboardURL := dashboard r; prs_Operation := "" |}, s).
Proof.
  intros Hr Hs Hp. unfold Provision, Registry_Get. rewrite Hr.
  destruct Hs as [->| ->]; by destruct (decide _).
Qed.

(** Provision on an instance that is being provisioned. *)
Lemma Provision_in_progress (A : Adapter) (X : UUID) (req : ProvisionRequest)
    (ai : bool) (s : broker) (r : InstanceRecord) :
  instances (reg s) !! X = Some r -> state_of r = PROVISIONING ->
  Provision A X req ai s = (Err (Fail ProvisionInProgress), s).
Proof.
  intros Hr Hs. unfold Provision, Registry_Get. by rewrite Hr, Hs.
Qed.

(** What a successful Provision leaves: an instance provisioned with these
    parameters, whose dashboard URL the response carries, or an instance
    being provisioned by a dispatched task, whose token the response
    carries. *)
Lemma Provision_Ok (A : Adapter) (X : UUID) (req : ProvisionRequest)
    (ai : bool) (s s1 : broker) (resp : ProvisionResponse) :
  Provision A X req ai s = (Ok resp, s1) ->
  (prs_Operation resp = "" /\
   exists r,
     instances (reg s1) !! X = Some r
     /\ (state_of r = PROVISIONED \/ state_of r = UPDATING)
     /\ si_Parameters (instance r) = Some (pr_Parameters req)
     /\ resp = {| prs_DashboardURL := dashboard r; prs_Operation := "" |})
  \/
  (prs_Operation resp <> "" /\
   queue s1 !! prs_Operation resp = Some (TaskProvision X) /\
   instances (reg s1) !! X
   = Some {| instance := new_instance X req; state_of := PROVISIONING;
             dashboard := "" |}).
Proof.
  unfold Provision, Registry_Get.
  destruct (instances (reg s) !! X) as [r|] eqn:Hid.
  - destruct (state_of r) eqn:Hst; try done;
      (destruct (decide _) as [Hp|]; [|done]); intros [= <- <-];
      left; (split; [done|]); exists r; eauto.
  - destruct ai.
    + destruct (Tracker_Begin X KProvision (trk s)) as [[T t]|] eqn:Hb;
        [|done].
      unfold commit, Registry_Put. simpl. rewrite Hid. intros [= <- <-].
      right. simpl. apply Tracker_Begin_Ok in Hb as (_ & -> & _).
      split; [apply token_of_not_empty|].
      by rewrite !lookup_insert_eq.
    + destruct (busy X (trk s)); [done|].
      destruct (Adapter_Create _ _ _) as [url|]; [|done].
      unfold commit, Registry_Put. simpl. rewrite Hid. intros [= <- <-].
      left. simpl. split; [done|]. eexists. rewrite lookup_insert_eq.
      split; [done|]. simpl. eauto.
Qed.

(** The worker of a provisioning task, when the adapter creates the
    instance: one Create call, and the instance is provisioned with the
    dashboard URL the adapter gave. *)
Lemma run_task_provisions (A : Adapter) (T : string) (X : UUID)
    (i : ServiceInstance) (url : string) (s : broker) :
  queue s !! T = Some (TaskProvision X) ->
  instances (reg s) !! X
  = Some {| instance := i; state_of := PROVISIONING; dashboard := "" |} ->
  Adapter_Create A (length (calls s)) i = Done url ->
  calls (run_task A T s) = (calls s ++ [CallCreate i])%list /\
  queue (run_task A T s) = delete T (queue s) /\
  instances (reg (run_task A T s)) !! X
  = Some {| instance := i; state_of := PROVISIONED; dashboard := url |}.
Proof.
  intros Hq Hr Hc. unfold run_task. rewrite Hq. simpl.
  unfold Registry_Get. rewrite Hr. simpl. rewrite Hc.
  unfold finish, worker_change, Registry_Update. simpl. rewrite Hr. simpl.
  destruct (Tracker_Complete T Success (trk s)); simpl;
    by rewrite lookup_insert_eq.
Qed.

Lemma run_task_provision_fails (A : Adapter) (T : string) (X : UUID)
    (i : ServiceInstance) (e : string) (s : broker) :
  queue s !! T = Some (TaskProvision X) ->
  instances (reg s) !! X
  = Some {| instance := i; state_of := PROVISIONING; dashboard := "" |} ->
  Adapter_Create A (length (calls s)) i = Reported e ->
  calls (run_task A T s) = (calls s ++ [CallCreate i])%list /\
  instances (reg (run_task A T s)) !! X = None.
Proof.
  intros Hq Hr Hc. unfold run_task. rewrite Hq. simpl.
  unfold Registry_Get. rewrite Hr. simpl. rewrite Hc.
  unfold finish, worker_change, Registry_Delete. simpl. rewrite Hr. simpl.
  destruct (Tracker_Complete T (Failure e) (trk s)); simpl;
    by rewrite lookup_delete_eq.
Qed.

(** C4, as stated, fails: after a first Provision accepted asynchronously,
    a second one with identical parameters does not return what the first
    returned, neither while the first is in progress nor after its task has
    completed; Create is called once. *)
Lemma provision_twice_differs :
  let '(r1, s1) := Provision demo_adapter "I2" demo_provision true initial in
  let '(r2, _) := Provision demo_adapter "I2" demo_provision true s1 in
  let s2 := run_task demo_adapter "op-0" s1 in
  let '(r3, s3) := Provision demo_adapter "I2" demo_provision true s2 in
  r1 = Ok {| prs_DashboardURL := ""; prs_Operation := "op-0" |} /\
  r2 = Err (Fail ProvisionInProgress) /\
  r2 <> r1 /\
  r3 = Ok {| prs_DashboardURL := "https://dashboard/I2";
             prs_Operation := "" |} /\
  r3 <> r1 /\
  calls s3 = [CallCreate (new_instance "I2" demo_provision)].
Proof. vm_compute. repeat split; discriminate. Qed.

(** C4, amended: let a Provision call for X succeed in a state the broker
    can reach, and let a second call with identical parameters follow it
    with no other call on X and no worker of a task of X in between (calls
    on other instances, their workers, polls and the collection of records
    may come in between).  The
    second call changes nothing and makes no adapter call.  When the first
    call returned its result directly (no operation token), the second
    returns the same response.  When the first call was accepted with an
    operation token, the second fails with ProvisionInProgress until the
    background task of the first has run, as does every call in every state
    in which X is PROVISIONING.  The task makes the one Create call: when
    Create succeeds, a second call after it returns the dashboard URL that
    Create gave, with no operation token; when Create fails, X is no longer
    registered. *)
Theorem provision_twice (A : Adapter) (C : CatalogModel) (s s1 : broker)
    (es1 es2 : list event) (X : UUID) (req : ProvisionRequest)
    (ai ai' : bool) (resp : ProvisionResponse) :
  reachable A C s ->
  Provision A X req ai s = (Ok resp, s1) ->
  run_elsewhere A C X es1 s1 ->
  let s2 := run A C es1 s1 in
  let i := new_instance X req in
  if decide (prs_Operation resp = "") then
    Provision A X req ai' s2 = (Ok resp, s2)
  else
    Provision A X req ai' s2 = (Err (Fail ProvisionInProgress), s2) /\
    (forall s' r,
        instances (reg s') !! X = Some r -> state_of r = PROVISIONING ->
        Provision A X req ai' s' = (Err (Fail ProvisionInProgress), s')) /\
    let s3 := run_task A (prs_Operation resp) s2 in
    let s4 := run A C es2 s3 in
    calls s3 = (calls s2 ++ [CallCreate i])%list /\
    (run_elsewhere A C X es2 s3 ->
     match Adapter_Create A (length (calls s2)) i with
     | Done url =>
         Provision A X req ai' s4
         = (Ok {| prs_DashboardURL := url; prs_Operation := "" |}, s4)
     | Reported _ => instances (reg s4) !! X = None
     end).
Proof.
  intros [es0 ->] Hfirst Hes1 s2 i.
  assert (invariant s1) as Hinv1.
  { replace s1
      with (apply_event A C (run A C es0 initial) (EvProvision X req ai))
      by (simpl; by rewrite Hfirst).
    apply invariant_apply_event, invariant_run, invariant_initial. }
  destruct (run_elsewhere_frame A C X es1 s1 Hinv1 Hes1)
    as (Hinv2 & Hg2 & Hq2). fold s2 in Hinv2, Hg2, Hq2.
  destruct (Provision_Ok A X req ai _ s1 resp Hfirst)
    as [(Ht & r & Hr & Hst & Hp & ->)|(Ht & Hq & Hr)].
  - destruct (decide _) as [_|Hn]; [|by destruct Hn].
    rewrite <- Hg2 in Hr. by apply Provision_prior.
  - destruct (decide _); [done|].
    rewrite <- Hg2 in Hr. apply Hq2 in Hq; [|done].
    split; [by eapply Provision_in_progress|].
    split; [intros s' r' Hr' Hs'; by eapply Provision_in_progress|].
    intros s3 s4.
    assert (invariant s3) as Hinv3 by by apply invariant_run_task.
    destruct (Adapter_Create A (length (calls s2)) i) as [url|e] eqn:Hc.
    + destruct (run_task_provisions A _ X _ url s2 Hq Hr Hc)
        as (Hcalls & _ & Hr3).
      split; [done|]. intros Hes2.
      destruct (run_elsewhere_frame A C X es2 s3 Hinv3 Hes2)
        as (_ & Hg4 & _).
      fold s3 s4 in Hr3, Hg4. rewrite <- Hg4 in Hr3.
      by apply (Provision_prior A X req ai' s4 _ Hr3); [left|].
    + destruct (run_task_provision_fails A _ X _ e s2 Hq Hr Hc)
        as (Hcalls & Hr3).
      split; [done|]. intros Hes2.
      destruct (run_elsewhere_frame A C X es2 s3 Hinv3 Hes2)
        as (_ & Hg4 & _).
      fold s3 s4 in Hr3, Hg4. by rewrite Hg4.
Qed.

Lemma provision_twice_witness :
  let s1 := snd (Provision demo_adapter "I2" demo_provision true initial) in
  let s2 :=
    run demo_adapter demo_catalog [EvProvision "I1" demo_provision false] s1 in
  let s3 := run_task demo_adapter "op-0" s2 in
  Provision demo_adapter "I2" demo_provision false s2
  = (Err (Fail ProvisionInProgress), s2) /\
  Provision demo_adapter "I2" demo_provision false s3
  = (Ok {| prs_DashboardURL := "https://dashboard/I2"; prs_Operation := "" |},
     s3).
Proof.
  intros s1 s2 s3.
  assert (reachable demo_adapter demo_catalog initial) as Hreach
      by by exists [].
  assert (Provision demo_adapter "I2" demo_provision true initial
          = (Ok {| prs_DashboardURL := ""; prs_Operation := "op-0" |}, s1))
    as Hfirst by (vm_compute; reflexivity).
  assert (run_elsewhere demo_adapter demo_catalog "I2"
            [EvProvision "I1" demo_provision false] s1) as Hes1
      by (simpl; split; [discriminate|exact I]).
  pose proof (provision_twice demo_adapter demo_catalog initial s1
                [EvProvision "I1" demo_provision false] [] "I2"
                demo_provision true false _ Hreach Hfirst Hes1) as H.
  simpl in H. destruct H as (H2 & _ & _ & H3). split; [exact H2|].
  apply H3. exact I.
Defined.

(** ** Bindings and their instances *)

(** C8: in every state the broker reaches, a binding that exists is owned
    by a service instance that the Registry holds, and that instance lists
    the binding. *)
Theorem bindings_reference_registered_instances (A : Adapter)
    (C : CatalogModel) (s : broker) (bid : UUID) (b : BindInstance) :
  reachable A C s ->
  GetBindInstance bid s = Ok b ->
  exists i,
    GetServiceInstance (bi_ServiceID b) s = Ok i
    /\ is_Some (si_BindingIDs i !! bid).
Proof.
  intros [es ->].
  pose proof (invariant_run A C es initial invariant_initial)
    as ((Hown & _) & _).
  unfold GetBindInstance, GetServiceInstance, Registry_GetBinding,
    Registry_Get.
  destruct (bindings (reg (run A C es initial)) !! bid) as [br|] eqn:Hbr;
    [|done].
  intros [= <-]. destruct (Hown _ _ Hbr) as (r & Hr & Hin).
  exists (instance r). by rewrite Hr.
Qed.

Lemma bindings_reference_registered_instances_witness :
  exists i,
    GetServiceInstance "I1" bound_broker = Ok i
    /\ is_Some (si_BindingIDs i !! "B1").
Proof.
  apply (bindings_reference_registered_instances demo_adapter demo_catalog
           bound_broker "B1" (new_binding "I1" "B1" demo_bind)).
  - by eexists.
  - vm_compute. reflexivity.
Defined.

(** * More about the declarations *)

Lemma assoc_elem_of {A : Type} (name : string) (l : list (string * A))
    (a : A) :
  assoc name l = Some a -> (name, a) ∈ l.
Proof.
  unfold assoc. destruct (List.find _ l) as [[n x]|] eqn:Hf; [|done].
  simpl. intros [= ->]. apply find_some in Hf as [Hin He]. simpl in He.
  apply String.eqb_eq in He as ->. by apply list_elem_of_In.
Qed.

(** X1: every type of package osb that a signature of the interface names
    is declared in types.go. *)
Theorem signature_types_declared (m : method) (t : gotype) (name : string) :
  m ∈ OpenServiceBroker -> t ∈ (m_params m ++ m_results m)%list ->
  name ∈ named t ->
  is_Some (type_of_name name).
Proof.
  intros Hm Ht Hn.
  assert (Forall
            (fun m =>
               Forall (fun t => Forall (fun n => is_Some (type_of_name n))
                                  (named t))
                 (m_params m ++ m_results m)%list)
            OpenServiceBroker) as H
      by (apply (bool_decide_unpack _); by vm_compute).
  rewrite Forall_forall in H. specialize (H _ Hm).
  rewrite Forall_forall in H. specialize (H _ Ht).
  rewrite Forall_forall in H. by apply H.
Qed.

Lemma signature_types_declared_witness :
  is_Some (type_of_name "BindRequest").
Proof.
  apply (signature_types_declared
           (Method "Bind"
              [osb "ServiceInstance"; uuid_UUID; TPtr (osb "BindRequest");
               TBool; context_Context]
              [TPtr (osb "BindResponse"); TBool; TError])
           (TPtr (osb "BindRequest")) "BindRequest").
  - unfold OpenServiceBroker. set_solver.
  - simpl. set_solver.
  - simpl. set_solver.
Defined.

(** X2: a declaration of types.go names only declared types of the
    package, and unfolding the names it uses comes to an end: no declared
    type contains itself, directly or through other declarations. *)
Theorem declared_types_closed (name : string) (d : gotype) :
  type_of_name name = Some d ->
  Forall (fun n => is_Some (type_of_name n)) (named d) /\
  exists t, expand 14 d = Some t /\ named t = [].
Proof.
  intros H. apply assoc_elem_of in H.
  assert (Forall
            (fun d : string * gotype =>
               Forall (fun n => is_Some (type_of_name n)) (named (snd d)) /\
               (named <$> expand 14 (snd d)) = Some [])
            type_decls) as HF
      by (apply (bool_decide_unpack _); by vm_compute).
  rewrite Forall_forall in HF. destruct (HF _ H) as [H1 H2].
  change (named <$> expand 14 d = Some []) in H2.
  split; [exact H1|].
  destruct (expand 14 d) as [t|]; [|discriminate H2]. exists t.
  split; [reflexivity|]. by injection H2.
Qed.

Lemma declared_types_closed_witness :
  Forall (fun n => is_Some (type_of_name n))
    (named (TStruct [("Services", TSlice (osb "Service"))])) /\
  exists t,
    expand 14 (TStruct [("Services", TSlice (osb "Service"))]) = Some t
    /\ named t = [].
Proof.
  apply (declared_types_closed "CatalogResponse"). reflexivity.
Defined.

(** X3: every struct of types.go, and each of its two anonymous struct
    types, has one json tag for each of its fields, in the order of the
    fields, and within a struct no two fields share a json name. *)
Theorem json_names_unique :
  (forall name fields,
      type_of_name name = Some (TStruct fields) ->
      is_Some (tags_at (Top name)) /\
      forall f inner,
        (f, TStruct inner) ∈ fields -> is_Some (tags_at (Inner name f))) /\
  (forall r tags,
      (r, tags) ∈ json_tags ->
      (fun fields : list (string * gotype) => fst <$> fields) <$> fields_at r
      = Some (jt_field <$> tags) /\
      NoDup (jt_name <$> tags)).
Proof.
  split.
  - intros name fields H. apply assoc_elem_of in H.
    assert (Forall
              (fun d : string * gotype =>
                 match snd d with
                 | TStruct fields =>
                     is_Some (tags_at (Top (fst d))) /\
                     Forall
                       (fun ft : string * gotype =>
                          match snd ft with
                          | TStruct _ =>
                              is_Some (tags_at (Inner (fst d) (fst ft)))
                          | _ => True
                          end)
                       fields
                 | _ => True
                 end)
              type_decls) as HF.
    { unfold type_decls.
      repeat (apply Forall_cons; split;
              [simpl;
               first
                 [ exact I
                 | split;
                   [apply (bool_decide_unpack _); by vm_compute|];
                   repeat (apply Forall_cons; split;
                           [simpl;
                            first [ exact I
                                  | apply (bool_decide_unpack _);
                                    by vm_compute ]|]);
                   by apply Forall_nil_2 ]|]).
      by apply Forall_nil_2. }
    rewrite Forall_forall in HF. specialize (HF _ H). simpl in HF.
    destruct HF as [H1 H2]. split; [done|].
    intros f inner Hf. rewrite Forall_forall in H2.
    by specialize (H2 _ Hf).
  - intros r tags H.
    assert (Forall
              (fun d : struct_ref * list json_tag =>
                 (fun fields : list (string * gotype) => fst <$> fields)
                   <$> fields_at (fst d)
                 = Some (jt_field <$> snd d) /\
                 NoDup (jt_name <$> snd d))
              json_tags) as HF
        by (apply (bool_decide_unpack _); by vm_compute).
    rewrite Forall_forall in HF. by specialize (HF _ H).
Qed.

(** X4: every field tagged omitempty is declared with a type that, with the
    names of package osb resolved, is a struct for Plan.Schemas,
    BindRequest.BindResource and UpdateRequest.PreviousValues, and for
    every other such field is bool, string, a slice, a map, a pointer or
    uuid.UUID. *)
Theorem omitempty_field_types (r : struct_ref) (tags : list json_tag)
    (tag : json_tag) :
  (r, tags) ∈ json_tags -> tag ∈ tags -> jt_omitempty tag = true ->
  exists fields t u,
    fields_at r = Some fields /\
    assoc (jt_field tag) fields = Some t /\
    underlying t = Some u /\
    if bool_decide
         ((r, jt_field tag)
          ∈ [(Top "Plan", "Schemas"); (Top "BindRequest", "BindResource");
             (Top "UpdateRequest", "PreviousValues")])
    then exists fs, u = TStruct fs
    else
      u = TBool \/ u = TString \/ (exists e, u = TSlice e) \/
      (exists k v, u = TMap k v) \/ (exists p, u = TPtr p) \/ u = uuid_UUID.
Proof.
  intros Hr Ht Ho. unfold json_tags in Hr.
  repeat (apply elem_of_cons in Hr as [[= -> ->]|Hr]);
    try (by apply elem_of_nil in Hr);
    repeat (apply elem_of_cons in Ht as [->|Ht]);
    try (by apply elem_of_nil in Ht); try discriminate Ho;
    (do 3 eexists;
     split; [reflexivity|split; [reflexivity|split; [reflexivity|]]]);
    cbv; eauto 10.
Qed.

Lemma omitempty_field_types_witness :
  exists fields t u,
    fields_at (Top "Plan") = Some fields /\
    assoc "Schemas" fields = Some t /\
    underlying t = Some u /\
    exists fs, u = TStruct fs.
Proof.
  apply (omitempty_field_types (Top "Plan")
           [Json "ID" "id" false; Json "Name" "name" false;
            Json "Description" "description" false;
            Json "Metadata" "metadata" true;
            Json "Free" "free" true; Json "Bindable" "bindable" true;
            Json "Schemas" "schemas" true;
            Json "UpdatesTo" "updates_to" true]
           (Json "Schemas" "schemas" true)).
  - apply list_elem_of_In. simpl. auto 40.
  - apply list_elem_of_In. simpl. auto 40.
  - reflexivity.
Defined.

(** X5: the struct an operation returns has a field Operation exactly when
    the operation is state-mutating; the field is then a string with the
    json name "operation", tagged omitempty. *)
Theorem operation_field_in_mutating_responses (op : broker_operation) :
  exists m name,
    find_method (operation_method op) = Some m /\
    response_type m = Some name /\
    if state_mutating op
    then field_type name "Operation" = Some TString /\
         Json "Operation" "operation" true
         ∈ default [] (tags_at (Top name))
    else field_type name "Operation" = None.
Proof.
  destruct op; eexists; eexists; (split; [reflexivity|]);
    (split; [reflexivity|]); simpl; try reflexivity;
    (split; [reflexivity|]); vm_compute; set_solver.
Qed.

(** X6: initialising a var block of errors.New calls gives each variable a
    pointer of its own, in declaration order from the next free address,
    and keeps every name and text; so no two of the errors are equal under
    [==], whatever their texts. *)
Theorem init_vars_fresh (decls : list (string * string)) (next : nat) :
  let vars := fst (init_vars decls next) in
  snd (init_vars decls next) = next + length decls /\
  (fun d => (fst d, err_text (snd d))) <$> vars = decls /\
  (fun d => err_addr (snd d)) <$> vars = seq next (length decls) /\
  forall i j x y,
    vars !! i = Some x -> vars !! j = Some y ->
    error_eqb (snd x) (snd y) = true -> i = j.
Proof.
  simpl.
  assert (snd (init_vars decls next) = next + length decls /\
          (fun d => (fst d, err_text (snd d))) <$> fst (init_vars decls next)
          = decls /\
          (fun d => err_addr (snd d)) <$> fst (init_vars decls next)
          = seq next (length decls)) as (H1 & H2 & H3).
  { revert next. induction decls as [|[name text] decls IH]; intros next;
      [done|].
    simpl. specialize (IH (S next)).
    destruct (init_vars decls (S next)) as [vars next2]. simpl in *.
    destruct IH as (E1 & E2 & E3).
    split; [lia|]. split; f_equal; [exact E2|exact E3]. }
  repeat (split; [done|]).
  intros i j x y Hx Hy He. unfold error_eqb in He.
  apply Nat.eqb_eq in He.
  assert (seq next (length decls) !! i = Some (err_addr (snd x))) as Hi
      by (rewrite <- H3, list_lookup_fmap, Hx; done).
  assert (seq next (length decls) !! j = Some (err_addr (snd y))) as Hj
      by (rewrite <- H3, list_lookup_fmap, Hy; done).
  apply lookup_seq in Hi as [Hi _], Hj as [Hj _]. lia.
Qed.

(** X7: every error variable of the package stands for a kind of the
    taxonomy: it is named ErrorK for a kind K, and is the error value
    declared for K. *)
Theorem declared_errors_are_taxonomy_kinds (name : string) (e : error) :
  (name, e) ∈ package_errors ->
  exists k,
    k <> AdapterFailure /\ name = "Error" +:+ kind_name k
    /\ declared_error k = Some e.
Proof.
  intros H. vm_compute in H.
  repeat (apply elem_of_cons in H as [[= -> ->]|H]);
    [ by exists AlreadyProvisioned | by exists Duplicate | by exists NotFound
    | by exists BindingExists | by exists ProvisionInProgress
    | by exists DeprovisionInProgress | by exists UpdateInProgress
    | by exists PlanNotFound | by exists ParameterNotUpdatable
    | by exists ParameterNotFound | by exists PlanUpdateNotPossible
    | by exists Forbidden | by apply elem_of_nil in H ].
Qed.

Lemma declared_errors_are_taxonomy_kinds_witness :
  exists k,
    k <> AdapterFailure /\ "ErrorForbidden" = "Error" +:+ kind_name k
    /\ declared_error k
       = Some (ErrorString 11 "User does not have sufficient permissions").
Proof.
  apply declared_errors_are_taxonomy_kinds.
  vm_compute. set_solver.
Defined.


(** X9: every name listed under .PHONY is the target of a rule, and the
    targets of rules not listed there are hydrodemo, check and clean. *)
Theorem phony_targets :
  (forall t, t ∈ PHONY -> is_Some (find_rule t)) /\
  (forall r, r ∈ Makefile ->
             rule_target r ∉ PHONY <->
             rule_target r ∈ ["hydrodemo"; "check"; "clean"]).
Proof.
  split.
  - intros t Ht.
    assert (Forall (fun t => is_Some (find_rule t)) PHONY) as HF
        by (apply (bool_decide_unpack _); by vm_compute).
    rewrite Forall_forall in HF. by apply HF.
  - intros r Hr.
    assert (Forall
              (fun r =>
                 rule_target r ∉ PHONY <->
                 rule_target r ∈ ["hydrodemo"; "check"; "clean"])
              Makefile) as HF
        by (apply (bool_decide_unpack _); by vm_compute).
    rewrite Forall_forall in HF. by apply HF.
Qed.

(** X10: a field name has the same json name in every struct that has a
    field of that name, except OrganizationID and SpaceID, which are
    organization_guid and space_guid in ProvisionRequest and organization_id
    and space_id in the previous values of UpdateRequest. *)
Theorem json_name_of_field (r1 r2 : struct_ref) (tags1 tags2 : list json_tag)
    (t1 t2 : json_tag) :
  (r1, tags1) ∈ json_tags -> (r2, tags2) ∈ json_tags ->
  t1 ∈ tags1 -> t2 ∈ tags2 -> jt_field t1 = jt_field t2 ->
  jt_name t1 = jt_name t2 \/
  r1 <> r2 /\ jt_field t1 ∈ ["OrganizationID"; "SpaceID"] /\
  r1 ∈ [Top "ProvisionRequest"; Inner "UpdateRequest" "PreviousValues"] /\
  r2 ∈ [Top "ProvisionRequest"; Inner "UpdateRequest" "PreviousValues"].
Proof.
  intros H1 H2 Ht1 Ht2.
  assert (Forall
            (fun d1 : struct_ref * list json_tag =>
               Forall
                 (fun d2 : struct_ref * list json_tag =>
                    Forall
                      (fun t1 =>
                         Forall
                           (fun t2 =>
                              jt_field t1 = jt_field t2 ->
                              jt_name t1 = jt_name t2 \/
                              fst d1 <> fst d2 /\
                              jt_field t1 ∈ ["OrganizationID"; "SpaceID"] /\
                              fst d1
                              ∈ [Top "ProvisionRequest";
                                 Inner "UpdateRequest" "PreviousValues"] /\
                              fst d2
                              ∈ [Top "ProvisionRequest";
                                 Inner "UpdateRequest" "PreviousValues"])
                           (snd d2))
                      (snd d1))
                 json_tags)
            json_tags) as HF
      by (apply (bool_decide_unpack _); by vm_compute).
  rewrite Forall_forall in HF. specialize (HF _ H1).
  rewrite Forall_forall in HF. specialize (HF _ H2). simpl in HF.
  rewrite Forall_forall in HF. specialize (HF _ Ht1).
  rewrite Forall_forall in HF. by specialize (HF _ Ht2).
Qed.

Lemma json_name_of_field_witness :
  "organization_guid" = "organization_id" \/
  Top "ProvisionRequest" <> Inner "UpdateRequest" "PreviousValues" /\
  "OrganizationID" ∈ ["OrganizationID"; "SpaceID"] /\
  Top "ProvisionRequest"
  ∈ [Top "ProvisionRequest"; Inner "UpdateRequest" "PreviousValues"] /\
  Inner "UpdateRequest" "PreviousValues"
  ∈ [Top "ProvisionRequest"; Inner "UpdateRequest" "PreviousValues"].
Proof.
  set (provision :=
         [Json "OrganizationID" "organization_guid" false;
          Json "PlanID" "plan_id" false; Json "ServiceID" "service_id" false;
          Json "SpaceID" "space_guid" false; Json "Context" "context" false;
          Json "Parameters" "parameters" true;
          Json "AcceptsIncomplete" "accepts_incomplete" true]).
  set (previous :=
         [Json "PlanID" "plan_id" true; Json "ServiceID" "service_id" true;
          Json "OrganizationID" "organization_id" true;
          Json "SpaceID" "space_id" true]).
  apply (json_name_of_field
           (Top "ProvisionRequest") (Inner "UpdateRequest" "PreviousValues")
           provision previous
           (Json "OrganizationID" "organization_guid" false)
           (Json "OrganizationID" "organization_id" true)).
  - apply list_elem_of_In. simpl. auto 40.
  - apply list_elem_of_In. simpl. auto 40.
  - apply list_elem_of_In. simpl. auto.
  - apply list_elem_of_In. simpl. auto.
  - reflexivity.
Defined.


